(** * slidev-mcp: outline generation, slide rendering and content validation

    A shallow embedding of [src/tools.ts] (outline generator, slide
    renderers, content validator), of the two recommendation helpers of
    [src/index.ts] and of the layout and theme catalogs of the server
    files, followed by the properties established about them.

    JavaScript strings are sequences of UTF-16 code units; they are
    modelled as lists of code units ([N]).  [String.prototype.toLowerCase]
    depends on the Unicode case tables and is kept abstract (a section
    variable): every general statement below holds for any lower-casing
    function.  Concrete evaluations use [toLowerCase_ascii], which agrees
    with JavaScript on strings of Basic Latin characters. *)

From Stdlib Require Import String Ascii DecimalString Floats Uint63.
From Stdlib Require Import ZArith NArith Bool List Lia.
Import ListNotations.

(* ================================================================== *)
(** ** JavaScript string and array primitives used by the program      *)
(* ================================================================== *)

Module JS.

Definition code_unit := N.
Definition jsstring := list code_unit.

(** A string literal of the source (Basic Latin text). *)
Definition lit (s : string) : jsstring :=
  map N_of_ascii (list_ascii_of_string s).

(** The line feed written [\n] in the source, and the double quote. *)
Definition LF : jsstring := [10%N].
Definition DQUOTE : jsstring := [34%N].

Fixpoint str_eqb (a b : jsstring) : bool :=
  match a, b with
  | [], [] => true
  | x :: a', y :: b' => (x =? y)%N && str_eqb a' b'
  | _, _ => false
  end.

(** [s.startsWith(pat)] *)
Fixpoint startsWith (s pat : jsstring) {struct pat} : bool :=
  match pat with
  | [] => true
  | p :: pat' =>
      match s with
      | [] => false
      | c :: s' => (c =? p)%N && startsWith s' pat'
      end
  end.

(** [s.includes(pat)] *)
Fixpoint includes (s pat : jsstring) : bool :=
  startsWith s pat
  || match s with
     | [] => false
     | _ :: s' => includes s' pat
     end.

(** [s.split(sep)] for a non-empty separator (both call sites pass a
    literal one): the string is scanned from the left; at each position
    where [sep] matches, the piece collected so far is emitted and the
    scan resumes after the match.  [skip] counts the code units of a
    matched separator still to be passed over, [cur] holds the current
    piece in reverse. *)
Fixpoint split_from (sep s : jsstring) (skip : nat) (cur : jsstring)
  : list jsstring :=
  match s with
  | [] => [rev cur]
  | c :: s' =>
      match skip with
      | S k => split_from sep s' k cur
      | O =>
          if startsWith (c :: s') sep
          then rev cur :: split_from sep s' (length sep - 1) []
          else split_from sep s' 0 (c :: cur)
      end
  end.

Definition split (s sep : jsstring) : list jsstring :=
  split_from sep s 0 [].

(** [xs.join(sep)] *)
Fixpoint join (xs : list jsstring) (sep : jsstring) : jsstring :=
  match xs with
  | [] => []
  | x :: rest =>
      match rest with
      | [] => x
      | _ :: _ => x ++ sep ++ join rest sep
      end
  end.

(** White space and line terminators removed by [String.prototype.trim]:
    TAB, LF, VT, FF, CR, SP, NBSP, U+1680, U+2000..U+200A, LS, PS,
    U+202F, U+205F, U+3000 and the byte order mark. *)
Definition is_whitespace (c : code_unit) : bool :=
  ((9 <=? c) && (c <=? 13) || (c =? 32) || (c =? 160) || (c =? 5760)
   || (8192 <=? c) && (c <=? 8202) || (c =? 8232) || (c =? 8233)
   || (c =? 8239) || (c =? 8287) || (c =? 12288) || (c =? 65279))%N.

Fixpoint trimStart (s : jsstring) : jsstring :=
  match s with
  | [] => []
  | c :: s' => if is_whitespace c then trimStart s' else s
  end.

Definition trimEnd (s : jsstring) : jsstring := rev (trimStart (rev s)).

(** [s.trim()] *)
Definition trim (s : jsstring) : jsstring := trimEnd (trimStart s).

(** Truthiness of a string value: the empty string is the only falsy one. *)
Definition truthy (s : jsstring) : bool :=
  match s with
  | [] => false
  | _ :: _ => true
  end.

(** Conversion of an integer-valued number inside a template literal. *)
Definition ofZ (z : Z) : jsstring :=
  lit (NilZero.string_of_int (Z.to_int z)).

(** [Number(z)] for the integers the program multiplies, as a binary64. *)
Definition toNumber (z : Z) : float := PrimFloat.of_uint63 (Uint63.of_Z z).

(** [Math.floor] of a finite binary64, as an integer.  The only call on a
    float, [Math.floor(slides * 0.6)], has [slides] between 5 and 20. *)
Definition Math_floor (x : float) : Z :=
  match Prim2SF x with
  | S754_finite sign m e => Z.shiftl (if sign then Z.neg m else Z.pos m) e
  | _ => 0
  end.

(** [xs.push(x)] on an array threaded as a value. *)
Definition push {A : Type} (xs : list A) (x : A) : list A := xs ++ [x].

(** [xs.forEach((x, index) => ...)], the callback updating a state. *)
Fixpoint forEach {A St : Type} (xs : list A) (index : nat)
         (f : A -> nat -> St -> St) (st : St) : St :=
  match xs with
  | [] => st
  | x :: xs' => forEach xs' (S index) f (f x index st)
  end.

(** A template literal whose text spans several source lines: the lines
    are separated by line feeds. *)
Definition template (lines : list jsstring) : jsstring := join lines LF.

(** Lower-casing restricted to the Basic Latin capitals. *)
Definition toLowerCase_ascii (s : jsstring) : jsstring :=
  map (fun c => if ((65 <=? c) && (c <=? 90))%N then (c + 32)%N else c) s.

End JS.

Import JS.

Open Scope Z_scope.

(* ================================================================== *)
(** ** src/tools.ts                                                    *)
(* ================================================================== *)

(** The loop [for (let i = 1; i <= contentSlides; i++) outline.push(...)],
    with [n] iterations left. *)
Fixpoint push_content (n : nat) (i : Z) (outline : list jsstring)
  : list jsstring :=
  match n with
  | O => outline
  | S n' => push_content n' (i + 1) (push outline (lit "Main Content " ++ ofZ i))
  end.

(** The slide count [Math.max(5, Math.min(20, Math.floor(duration / 2)))]
    for an integer-valued [duration]. *)
Definition slideCount (duration : Z) : Z :=
  Z.max 5 (Z.min 20 (duration / 2)).

(** [duration] is the integer the number holds; the literal [0.6] is the
    binary64 [0x1.3333333333333p-1], and the product is a binary64 one. *)
Definition generatePresentationOutline (topic : jsstring) (duration : Z)
  : list jsstring :=
  let slides := slideCount duration in
  let outline :=
    [ lit "Title: " ++ topic;
      lit "Introduction and Overview";
      lit "Background and Context" ] in
  let contentSlides :=
    Math_floor (PrimFloat.mul (toNumber slides) 0x1.3333333333333p-1%float) in
  let outline := push_content (Z.to_nat contentSlides) 1 outline in
  let outline := push outline (lit "Key Takeaways") in
  let outline := push outline (lit "Conclusion") in
  let outline := push outline (lit "Q&A") in
  firstn (Z.to_nat slides) outline.

Definition createTableOfContents (topics : list jsstring) : jsstring :=
  let tocItems := join (map (fun topic => lit "- " ++ topic) topics) LF in
  template
    [ lit "---";
      lit "layout: center";
      lit "---";
      lit "";
      lit "# Table of Contents";
      lit "";
      tocItems;
      lit "";
      lit "---";
      lit "" ].

Section Rendering.

Variable toLowerCase : jsstring -> jsstring.

(** The body of the [forEach] callback of [createPresentationFromOutline]:
    layout and content chosen for one outline item, then the slide pushed. *)
Definition render_item (title author : jsstring)
           (item : jsstring) (_index : nat) (slides : list jsstring)
  : list jsstring :=
  let '(layout, content) :=
    if includes (toLowerCase item) (lit "introduction") then
      (lit "intro",
       template
         [ lit "## Welcome";
           lit "";
           lit "This presentation covers " ++ toLowerCase title ++ lit ".";
           lit "";
           lit "### What you'll learn:";
           lit "- Key concepts and principles";
           lit "- Practical applications";
           lit "- Real-world examples" ])
    else if includes (toLowerCase item) (lit "conclusion") then
      (lit "statement",
       template
         [ lit "## Summary";
           lit "";
           lit "We've covered the essential aspects of "
             ++ toLowerCase title ++ lit ".";
           lit "";
           lit "### Key takeaways:";
           lit "- Point 1";
           lit "- Point 2";
           lit "- Point 3" ])
    else if includes (toLowerCase item) (lit "q&a") then
      (lit "end",
       template
         [ lit "# Questions?";
           lit "";
           lit "Thank you for your attention!";
           lit "";
           lit "Contact: " ++ author ])
    else
      (lit "default",
       template
         [ lit "## " ++ item;
           lit "";
           lit "<!-- Add your content for " ++ DQUOTE ++ item ++ DQUOTE
             ++ lit " here -->";
           lit "";
           lit "### Key Points:";
           lit "- Point 1";
           lit "- Point 2";
           lit "- Point 3";
           lit "";
           lit "### Details:";
           lit "- Additional information";
           lit "- Supporting evidence";
           lit "- Examples" ]) in
  let layoutConfig :=
    if str_eqb layout (lit "default") then lit ""
    else lit "layout: " ++ layout ++ LF in
  push slides
    (template
       [ lit "---";
         layoutConfig ++ lit "---";
         lit "";
         content;
         lit "";
         lit "---";
         lit "" ]).

Definition createPresentationFromOutline
           (title author : jsstring) (outline : list jsstring)
           (theme : jsstring) : jsstring :=
  let slides :=
    [ template
        [ lit "---";
          lit "theme: " ++ theme;
          lit "title: " ++ title;
          lit "author: " ++ author;
          lit "drawings:";
          lit "  enabled: true";
          lit "  persist: false";
          lit "transition: slide-left";
          lit "colorSchema: auto";
          lit "---";
          lit "";
          lit "# " ++ title;
          lit "";
          lit "A presentation by " ++ author;
          lit "";
          lit "---";
          lit "" ];
      createTableOfContents (skipn 1 outline) ] in
  let slides := forEach (skipn 1 outline) 0 (render_item title author) slides in
  join slides LF.

End Rendering.

Record ValidationResult := mkValidationResult
  { isValid : bool;
    errors : list jsstring }.

(** The filter predicate of [validateSlideContent]:
    [line.trim() && !line.startsWith('---') && !line.includes(':')]. *)
Definition is_content_line (line : jsstring) : bool :=
  truthy (trim line)
  && negb (startsWith line (lit "---"))
  && negb (includes line (lit ":")).

(** The body of the [forEach] callback of [validateSlideContent]. *)
Definition check_slide (slide : jsstring) (index : nat)
           (errors : list jsstring) : list jsstring :=
  let contentLines := filter is_content_line (split slide LF) in
  if (length contentLines =? 0)%nat
  then push errors
            (lit "Slide " ++ ofZ (Z.of_nat index + 1)
                 ++ lit " appears to be empty")
  else errors.

Definition validateSlideContent (content : jsstring) : ValidationResult :=
  let errors : list jsstring := [] in
  let errors :=
    if negb (includes content (lit "---"))
    then push errors (lit "Missing slide separators (---)")
    else errors in
  let errors :=
    if negb (startsWith content (lit "---"))
    then push errors (lit "Missing frontmatter at the beginning")
    else errors in
  let slides := split content (LF ++ lit "---" ++ LF) in
  let errors := forEach slides 0 check_slide errors in
  {| isValid := (length errors =? 0)%nat;
     errors := errors |}.

Definition formatCodeBlock (code language : jsstring) : jsstring :=
  template
    [ lit "```" ++ language;
      code;
      lit "```" ].

Definition createComparisonSlide
           (title leftTitle : jsstring) (leftContent : list jsstring)
           (rightTitle : jsstring) (rightContent : list jsstring) : jsstring :=
  let leftItems := join (map (fun item => lit "- " ++ item) leftContent) LF in
  let rightItems := join (map (fun item => lit "- " ++ item) rightContent) LF in
  template
    [ lit "---";
      lit "layout: two-cols";
      lit "---";
      lit "";
      lit "# " ++ title;
      lit "";
      lit "::left::";
      lit "";
      lit "## " ++ leftTitle;
      lit "";
      leftItems;
      lit "";
      lit "::right::";
      lit "";
      lit "## " ++ rightTitle;
      lit "";
      rightItems;
      lit "";
      lit "---";
      lit "" ].

(** The union type ['image' | 'image-left' | 'image-right']. *)
Inductive ImageLayout := LayoutImage | LayoutImageLeft | LayoutImageRight.

Definition layout_name (l : ImageLayout) : jsstring :=
  match l with
  | LayoutImage => lit "image"
  | LayoutImageLeft => lit "image-left"
  | LayoutImageRight => lit "image-right"
  end.

(** [caption] is an optional argument: [None] stands for [undefined]. *)
Definition createImageSlide (title imagePath : jsstring)
           (caption : option jsstring) (layout : ImageLayout) : jsstring :=
  let captionText :=
    match caption with
    | Some c => if truthy c then LF ++ LF ++ lit "*" ++ c ++ lit "*" else lit ""
    | None => lit ""
    end in
  match layout with
  | LayoutImage =>
      template
        [ lit "---";
          lit "layout: image";
          lit "image: " ++ imagePath;
          lit "---";
          lit "";
          lit "# " ++ title ++ captionText;
          lit "";
          lit "---";
          lit "" ]
  | _ =>
      template
        [ lit "---";
          lit "layout: " ++ layout_name layout;
          lit "image: " ++ imagePath;
          lit "---";
          lit "";
          lit "# " ++ title;
          lit "";
          captionText;
          lit "";
          lit "---";
          lit "" ]
  end.

(* ================================================================== *)
(** ** src/index.ts: recommendation helpers, and the catalogs          *)
(* ================================================================== *)

Definition SLIDEV_LAYOUTS : list jsstring :=
  [ lit "default"; lit "center"; lit "cover"; lit "end"; lit "fact";
    lit "full"; lit "image"; lit "image-left"; lit "image-right";
    lit "iframe"; lit "iframe-left"; lit "iframe-right"; lit "intro";
    lit "none"; lit "quote"; lit "section"; lit "statement";
    lit "two-cols"; lit "two-cols-header" ].

Definition SLIDEV_THEMES : list jsstring :=
  [ lit "seriph"; lit "default"; lit "apple-basic"; lit "bricks";
    lit "light"; lit "academic"; lit "eloc"; lit "penguin"; lit "shibainu" ].

Section Recommendation.

Variable toLowerCase : jsstring -> jsstring.

(** [style?.toLowerCase() || ''] *)
Definition lower_style (style : option jsstring) : jsstring :=
  match style with
  | Some s => if truthy (toLowerCase s) then toLowerCase s else lit ""
  | None => lit ""
  end.

Definition recommendTheme (topic : jsstring) (style : option jsstring)
  : jsstring :=
  let topicLower := toLowerCase topic in
  let styleLower := lower_style style in
  if includes styleLower (lit "academic")
     || includes styleLower (lit "research")
     || includes topicLower (lit "research")
  then lit "academic"
  else if includes styleLower (lit "tech")
          || includes topicLower (lit "tech")
          || includes topicLower (lit "programming")
          || includes topicLower (lit "development")
  then lit "apple-basic"
  else if includes styleLower (lit "creative")
          || includes styleLower (lit "fun")
          || includes topicLower (lit "creative")
  then lit "bricks"
  else if includes styleLower (lit "formal")
          || includes styleLower (lit "business")
          || includes topicLower (lit "business")
  then lit "light"
  else if includes styleLower (lit "casual")
          || includes styleLower (lit "friendly")
  then lit "penguin"
  else lit "seriph".

Definition recommendLayout (description : jsstring) : jsstring :=
  let descLower := toLowerCase description in
  if includes descLower (lit "comparison")
     || includes descLower (lit "vs")
     || includes descLower (lit "versus")
  then lit "two-cols"
  else if includes descLower (lit "quote") || includes descLower (lit "saying")
  then lit "quote"
  else if includes descLower (lit "image")
          || includes descLower (lit "picture")
          || includes descLower (lit "photo")
  then lit "image"
  else if includes descLower (lit "center") || includes descLower (lit "focus")
  then lit "center"
  else if includes descLower (lit "intro")
          || includes descLower (lit "introduction")
  then lit "intro"
  else if includes descLower (lit "end")
          || includes descLower (lit "conclusion")
          || includes descLower (lit "thank")
  then lit "end"
  else lit "default".

End Recommendation.

(** The separator [validateSlideContent] splits on, and its messages. *)
Definition SEP : jsstring := LF ++ lit "---" ++ LF.

Definition empty_msg (k : Z) : jsstring :=
  lit "Slide " ++ ofZ k ++ lit " appears to be empty".

(** A segment that [check_slide] reports. *)
Definition slide_is_empty (slide : jsstring) : bool :=
  (length (filter is_content_line (split slide LF)) =? 0)%nat.

(** The messages [check_slide] adds for the segments [slides], the first
    of which has 0-based position [index]. *)
Fixpoint empty_slide_errors (slides : list jsstring) (index : nat)
  : list jsstring :=
  match slides with
  | [] => []
  | slide :: rest =>
      (if slide_is_empty slide then [empty_msg (Z.of_nat index + 1)] else [])
        ++ empty_slide_errors rest (S index)
  end.

(** A string that ends with the slide separator. *)
Definition EndsWithSep (s : jsstring) : Prop := exists prefix, s = prefix ++ SEP.

(** The number of items of an outline, from its slide count. *)
Definition outline_size (slides : Z) : Z := Z.min slides (6 + 3 * slides / 5).

(** *** The validator as the specification words it

    Rule 1: no separator anywhere.  Rule 2: the text does not start with
    one.  Rule 3: for each segment between separators, numbered from 1,
    the lines that are blank, start with three dashes or contain a colon
    are stripped; a segment with no line left is reported. *)

Definition is_blank (line : jsstring) : bool := forallb is_whitespace line.

Definition is_stripped (line : jsstring) : bool :=
  is_blank line || startsWith line (lit "---") || includes line (lit ":").

Definition remaining_lines (segment : jsstring) : list jsstring :=
  filter (fun line => negb (is_stripped line)) (split segment LF).

Definition segment_errors (segments : list jsstring) : list jsstring :=
  flat_map
    (fun numbered : nat * jsstring =>
       match remaining_lines (snd numbered) with
       | [] => [empty_msg (Z.of_nat (fst numbered))]
       | _ :: _ => []
       end)
    (combine (seq 1 (length segments)) segments).

Definition validate_spec (content : jsstring) : ValidationResult :=
  let errs :=
    (if includes content (lit "---") then []
     else [lit "Missing slide separators (---)"])
      ++ (if startsWith content (lit "---") then []
          else [lit "Missing frontmatter at the beginning"])
      ++ segment_errors (split content SEP) in
  {| isValid := match errs with [] => true | _ :: _ => false end;
     errors := errs |}.

(** *** The recommendation rules as ordered tables

    Each theme rule lists the keywords looked for in the lower-cased style
    and those looked for in the lower-cased topic; each layout rule lists
    the keywords looked for in the lower-cased description.  The first
    rule that matches gives the result. *)

Record theme_rule := mkThemeRule
  { style_keywords : list jsstring;
    topic_keywords : list jsstring;
    rule_theme : jsstring }.

Definition theme_rules : list theme_rule :=
  [ mkThemeRule [lit "academic"; lit "research"] [lit "research"]
                (lit "academic");
    mkThemeRule [lit "tech"]
                [lit "tech"; lit "programming"; lit "development"]
                (lit "apple-basic");
    mkThemeRule [lit "creative"; lit "fun"] [lit "creative"] (lit "bricks");
    mkThemeRule [lit "formal"; lit "business"] [lit "business"] (lit "light");
    mkThemeRule [lit "casual"; lit "friendly"] [] (lit "penguin") ].

Definition theme_rule_matches (styleLower topicLower : jsstring)
           (r : theme_rule) : bool :=
  existsb (includes styleLower) (style_keywords r)
  || existsb (includes topicLower) (topic_keywords r).

Fixpoint first_theme (rules : list theme_rule)
         (styleLower topicLower : jsstring) : jsstring :=
  match rules with
  | [] => lit "seriph"
  | r :: rest =>
      if theme_rule_matches styleLower topicLower r then rule_theme r
      else first_theme rest styleLower topicLower
  end.

Record layout_rule := mkLayoutRule
  { layout_keywords : list jsstring;
    rule_layout : jsstring }.

Definition layout_rules : list layout_rule :=
  [ mkLayoutRule [lit "comparison"; lit "vs"; lit "versus"] (lit "two-cols");
    mkLayoutRule [lit "quote"; lit "saying"] (lit "quote");
    mkLayoutRule [lit "image"; lit "picture"; lit "photo"] (lit "image");
    mkLayoutRule [lit "center"; lit "focus"] (lit "center");
    mkLayoutRule [lit "intro"; lit "introduction"] (lit "intro");
    mkLayoutRule [lit "end"; lit "conclusion"; lit "thank"] (lit "end") ].

Definition layout_rule_matches (descLower : jsstring) (r : layout_rule)
  : bool :=
  existsb (includes descLower) (layout_keywords r).

Fixpoint first_layout (rules : list layout_rule) (descLower : jsstring)
  : jsstring :=
  match rules with
  | [] => lit "default"
  | r :: rest =>
      if layout_rule_matches descLower r then rule_layout r
      else first_layout rest descLower
  end.

(** *** Inputs the statements below evaluate the program on *)

(** The deck of the repository's test "should validate correct slide
    content" (test/index.test.ts). *)
Definition test_validContent : jsstring :=
  template
    [ lit "---";
      lit "theme: seriph";
      lit "---";
      lit "";
      lit "# Title";
      lit "";
      lit "Content here";
      lit "";
      lit "---";
      lit "";
      lit "# Slide 2";
      lit "";
      lit "More content";
      lit "";
      lit "---" ].

(** A deck rendered from a one-section generic outline. *)
Definition sample_deck : jsstring :=
  createPresentationFromOutline toLowerCase_ascii (lit "T") (lit "A")
    [lit "Title: T"; lit "Main Content 1"] (lit "seriph").

(** A deck whose second slide has a single line of text, with colons. *)
Definition ratio_deck : jsstring :=
  template
    [ lit "---";
      lit "";
      lit "# Mixing";
      lit "";
      lit "---";
      lit "Ratio: 3:1" ].

(* ================================================================== *)
(** ** Further code: array primitives, tool handlers, web helpers      *)
(* ================================================================== *)

(** [xs.slice(0, end)] for an integer [end]: a negative [end] counts from
    the end of the array. *)
Definition slice_to {A : Type} (xs : list A) (end_ : Z) : list A :=
  let len := Z.of_nat (length xs) in
  let final := if end_ <? 0 then Z.max (len + end_) 0 else Z.min end_ len in
  firstn (Z.to_nat final) xs.

(** [xs.splice(start, 0, x)] for an integer [start], as the array after
    the call: a negative [start] counts from the end, and the start is
    clamped to the array. *)
Definition splice_insert {A : Type} (xs : list A) (start : Z) (x : A)
  : list A :=
  let len := Z.of_nat (length xs) in
  let actualStart :=
    if start <? 0 then Z.max (len + start) 0 else Z.min start len in
  firstn (Z.to_nat actualStart) xs ++ x :: skipn (Z.to_nat actualStart) xs.

(** [s.replace(/\s+/g, r)]: every maximal run of white space becomes [r].
    [in_run] tells that the previous code unit was white space. *)
Fixpoint replace_space_runs (s : jsstring) (in_run : bool) (r : jsstring)
  : jsstring :=
  match s with
  | [] => []
  | c :: s' =>
      if is_whitespace c
      then (if in_run then replace_space_runs s' true r
            else r ++ replace_space_runs s' true r)
      else c :: replace_space_runs s' false r
  end.

(** *** src/index.ts: [generateSlideContent] and the tool handlers *)

Definition generateSlideContent (topic layout content : jsstring) : jsstring :=
  let layoutConfig :=
    if str_eqb layout (lit "default") then lit ""
    else lit "layout: " ++ layout ++ LF in
  template
    [ lit "---";
      layoutConfig ++ lit "---";
      lit "";
      lit "# " ++ topic;
      lit "";
      content;
      lit "";
      lit "---";
      lit "" ].

(** The four bodies of case ['generate-slide-content']. *)
Definition two_cols_body (description : jsstring) : jsstring :=
  template
    [ lit "";
      lit "::left::";
      lit "";
      lit "## Key Points";
      lit "";
      lit "- " ++ join (slice_to (split description (lit " ")) 10) (lit " ")
          ++ lit "...";
      lit "";
      lit "::right::";
      lit "";
      lit "## Details";
      lit "";
      lit "- Additional information here";
      lit "- Supporting details";
      lit "- Examples and use cases";
      lit "" ].

Definition image_side_body (topic description : jsstring) : jsstring :=
  template
    [ lit "";
      lit "## " ++ topic;
      lit "";
      description;
      lit "";
      lit "Key highlights:";
      lit "- Main point 1";
      lit "- Main point 2";
      lit "- Main point 3";
      lit "" ].

Definition quote_body (description : jsstring) : jsstring :=
  template
    [ lit "";
      lit "> " ++ DQUOTE ++ description ++ DQUOTE;
      lit "";
      lit "*- Author Name*";
      lit "" ].

Definition overview_body (description : jsstring) : jsstring :=
  template
    [ lit "";
      lit "## Overview";
      lit "";
      description;
      lit "";
      lit "## Key Points";
      lit "";
      lit "- Point 1 based on description";
      lit "- Point 2 derived from content";
      lit "- Point 3 summarizing main idea";
      lit "" ].

Definition slide_body (selectedLayout topic description : jsstring)
  : jsstring :=
  if str_eqb selectedLayout (lit "two-cols") then two_cols_body description
  else if str_eqb selectedLayout (lit "image-left")
          || str_eqb selectedLayout (lit "image-right")
  then image_side_body topic description
  else if str_eqb selectedLayout (lit "quote") then quote_body description
  else overview_body description.

Section Handlers.

Variable toLowerCase : jsstring -> jsstring.

(** [layout || recommendLayout(description)] *)
Definition selected_layout (layout : option jsstring) (description : jsstring)
  : jsstring :=
  match layout with
  | Some l => if truthy l then l else recommendLayout toLowerCase description
  | None => recommendLayout toLowerCase description
  end.

(** The local [slideContent] of case ['generate-slide-content']. *)
Definition generate_slide_content
           (topic description : jsstring) (layout : option jsstring)
  : jsstring :=
  let selectedLayout := selected_layout layout description in
  generateSlideContent topic selectedLayout
                       (slide_body selectedLayout topic description).

(** The package name of case ['create-slidev-project']:
    [title.toLowerCase().replace(/\s+/g, '-')]. *)
Definition package_name (title : jsstring) : jsstring :=
  replace_space_runs (toLowerCase title) false (lit "-").

End Handlers.

(** What case ['generate-presentation'] does with well-typed arguments:
    it answers the validation errors, or goes on to write the deck. *)
Inductive GenerateOutcome :=
| ValidationErrors (errors : list jsstring)
| WriteFile (outputPath content : jsstring).

Section GeneratePresentation.

Variable toLowerCase : jsstring -> jsstring.

Definition generate_presentation
           (topic author : jsstring) (duration : option Z)
           (theme : option jsstring) (outputPath : jsstring)
           (style : option jsstring) : GenerateOutcome :=
  let duration := match duration with Some d => d | None => 30 end in
  let selectedTheme :=
    match theme with
    | Some t => if truthy t then t else recommendTheme toLowerCase topic style
    | None => recommendTheme toLowerCase topic style
    end in
  let outline := generatePresentationOutline topic duration in
  let presentationContent :=
    createPresentationFromOutline toLowerCase topic author outline
                                  selectedTheme in
  let validation := validateSlideContent presentationContent in
  if negb (isValid validation)
  then ValidationErrors (errors validation)
  else WriteFile outputPath presentationContent.

End GeneratePresentation.

(** The text case ['add-slide'] writes back, from the text it has read:
    [position] is the optional, integer-valued argument. *)
Definition add_slide (content slideContent : jsstring) (position : option Z)
  : jsstring :=
  let slides := split content SEP in
  let slides :=
    match position with
    | Some p =>
        if negb (p =? 0) && (p <? Z.of_nat (length slides))
        then splice_insert slides p slideContent
        else push slides slideContent
    | None => push slides slideContent
    end in
  join slides SEP.

(** *** The web helpers of the full tool set (mock implementations) *)

Module WebTools.

(** The characters [encodeURIComponent] leaves as they are: letters,
    digits and [- _ . ! ~ * ' ( )]. *)
Definition is_uri_unreserved (c : code_unit) : bool :=
  ((65 <=? c) && (c <=? 90) || (97 <=? c) && (c <=? 122)
   || (48 <=? c) && (c <=? 57)
   || existsb (N.eqb c) [45; 95; 46; 33; 126; 42; 39; 40; 41])%N.

Definition hex_digit (n : N) : code_unit :=
  (if n <? 10 then 48 + n else 55 + n)%N.

(** An octet as a percent sign and two upper-case hexadecimal digits. *)
Definition percent_octet (b : N) : jsstring :=
  [37%N; hex_digit (b / 16); hex_digit (b mod 16)].

(** The UTF-8 octets of a code point. *)
Definition utf8_octets (cp : N) : list N :=
  (if cp <? 128 then [cp]
   else if cp <? 2048 then [192 + cp / 64; 128 + cp mod 64]
   else if cp <? 65536
        then [224 + cp / 4096; 128 + (cp / 64) mod 64; 128 + cp mod 64]
        else [240 + cp / 262144; 128 + (cp / 4096) mod 64;
              128 + (cp / 64) mod 64; 128 + cp mod 64])%N.

Definition is_high_surrogate (c : code_unit) : bool :=
  ((55296 <=? c) && (c <=? 56319))%N.

Definition is_low_surrogate (c : code_unit) : bool :=
  ((56320 <=? c) && (c <=? 57343))%N.

(** [encodeURIComponent(s)]; [None] stands for the [URIError] thrown on an
    unpaired surrogate. *)
Fixpoint encodeURIComponent (s : jsstring) : option jsstring :=
  match s with
  | [] => Some []
  | c :: rest =>
      if is_uri_unreserved c
      then option_map (cons c) (encodeURIComponent rest)
      else if is_low_surrogate c then None
      else if is_high_surrogate c then
        match rest with
        | lo :: rest' =>
            if is_low_surrogate lo
            then
              let cp := ((c - 55296) * 1024 + (lo - 56320) + 65536)%N in
              option_map (app (flat_map percent_octet (utf8_octets cp)))
                         (encodeURIComponent rest')
            else None
        | [] => None
        end
      else option_map (app (flat_map percent_octet (utf8_octets c)))
                      (encodeURIComponent rest)
  end.

Record SearchResult := mkSearchResult
  { title : jsstring;
    url : jsstring;
    snippet : jsstring }.

(** [searchWeb(query, limit)]: [None] stands for a rejected promise. *)
Definition searchWeb (query : jsstring) (limit : Z)
  : option (list SearchResult) :=
  match encodeURIComponent query with
  | None => None
  | Some encoded =>
      let mockResults :=
        [ {| title := lit "Search result for " ++ DQUOTE ++ query ++ DQUOTE;
             url := lit "https://example.com/search?q=" ++ encoded;
             snippet :=
               lit "This is a mock search result for the query "
                 ++ DQUOTE ++ query ++ DQUOTE
                 ++ lit ". In a real implementation, this would return actual search results from a search engine API." |} ] in
      Some (slice_to mockResults limit)
  end.

End WebTools.

(** The layout rules with the keywords that can decide: in the fifth rule
    "introduction" is left out. *)
Definition layout_rules_effective : list layout_rule :=
  [ mkLayoutRule [lit "comparison"; lit "vs"; lit "versus"] (lit "two-cols");
    mkLayoutRule [lit "quote"; lit "saying"] (lit "quote");
    mkLayoutRule [lit "image"; lit "picture"; lit "photo"] (lit "image");
    mkLayoutRule [lit "center"; lit "focus"] (lit "center");
    mkLayoutRule [lit "intro"] (lit "intro");
    mkLayoutRule [lit "end"; lit "conclusion"; lit "thank"] (lit "end") ].

(** The lines a bullet list takes in a rendered block: one per item, and
    a single empty line when there is no item. *)
Definition bullet_lines (items : list jsstring) : list jsstring :=
  match items with
  | [] => [lit ""]
  | _ :: _ => map (fun item => lit "- " ++ item) items
  end.

(** The characters an encoded URI component is made of: the unreserved
    ones and the percent sign. *)
Definition uri_safe (c : code_unit) : bool :=
  WebTools.is_uri_unreserved c || (c =? 37)%N.

Definition not_whitespace (c : code_unit) : bool := negb (is_whitespace c).

(** The lines between the heading and the closing separator of an image
    slide: the caption is [None] when absent or empty. *)
Definition caption_lines (layout : ImageLayout) (caption : option jsstring)
  : list jsstring :=
  match layout, caption with
  | LayoutImage, Some c => [lit ""; lit "*" ++ c ++ lit "*"]
  | LayoutImage, None => []
  | _, Some c => [lit ""; lit ""; lit ""; lit "*" ++ c ++ lit "*"]
  | _, None => [lit ""; lit ""]
  end.

(** The caption that counts: an empty one is as good as none. *)
Definition given_caption (caption : option jsstring) : option jsstring :=
  match caption with
  | Some c => if truthy c then Some c else None
  | None => None
  end.

(** *** Inputs of the witnesses *)

(** A three-slide text, as read by ['add-slide']. *)
Definition three_slides : jsstring :=
  template [lit "a"; lit "---"; lit "b"; lit "---"; lit "c"].

(* ================================================================== *)
(** ** Properties of the string primitives                             *)
(* ================================================================== *)

Section SplitFacts.

Variable sep : jsstring.

Lemma split_from_skip : forall s k cur,
    split_from sep s k cur = split_from sep (skipn k s) 0 cur.
Proof.
  induction s as [|c s IH]; intros k cur.
  - now rewrite skipn_nil.
  - destruct k as [|k]; [reflexivity|].
    cbn [skipn split_from]. apply IH.
Qed.

Lemma split_from_nomatch : forall c s cur,
    startsWith (c :: s) sep = false ->
    split_from sep (c :: s) 0 cur = split_from sep s 0 (c :: cur).
Proof.
  intros c s cur H. cbn [split_from]. now rewrite H.
Qed.

Lemma split_from_match : forall s cur,
    sep <> [] ->
    startsWith s sep = true ->
    split_from sep s 0 cur
    = rev cur :: split_from sep (skipn (length sep) s) 0 [].
Proof.
  intros s cur Hsep H. destruct s as [|c s].
  - destruct sep; [congruence | discriminate].
  - cbn [split_from]. rewrite H. f_equal.
    rewrite split_from_skip. f_equal.
    destruct sep as [|p sep']; [congruence|].
    simpl. now rewrite Nat.sub_0_r.
Qed.

Lemma startsWith_app : forall rest, startsWith (sep ++ rest) sep = true.
Proof.
  intros rest. induction sep as [|p sep' IH]; [reflexivity|].
  simpl. now rewrite N.eqb_refl, IH.
Qed.

Lemma startsWith_inv : forall s,
    startsWith s sep = true -> s = sep ++ skipn (length sep) s.
Proof.
  induction sep as [|p sep' IH]; intros s H; [reflexivity|].
  destruct s as [|c s]; [discriminate|].
  simpl in H. apply andb_prop in H as [Hc Hs].
  apply N.eqb_eq in Hc. subst c. simpl. f_equal. now apply IH.
Qed.

(** The two equations that characterise [split]: a text without the
    separator is a single piece, and a text is cut at the leftmost
    occurrence of the separator. *)
Lemma split_from_no_occurrence : forall s cur,
    includes s sep = false ->
    split_from sep s 0 cur = [rev cur ++ s].
Proof.
  induction s as [|c s IH]; intros cur H.
  - cbn [split_from]. now rewrite app_nil_r.
  - cbn [includes] in H. apply orb_false_elim in H as [Hhere Hlater].
    rewrite split_from_nomatch by exact Hhere. rewrite IH by exact Hlater.
    cbn [rev]. now rewrite <- app_assoc.
Qed.

Lemma split_no_occurrence : forall s,
    includes s sep = false -> split s sep = [s].
Proof. intros s H. unfold split. now rewrite split_from_no_occurrence. Qed.

Lemma split_from_leftmost : forall a b cur,
    sep <> [] ->
    (forall k, (k < length a)%nat ->
               startsWith (skipn k (a ++ sep ++ b)) sep = false) ->
    split_from sep (a ++ sep ++ b) 0 cur
    = (rev cur ++ a) :: split_from sep b 0 [].
Proof.
  induction a as [|c a IH]; intros b cur Hsep H.
  - cbn [app]. rewrite split_from_match by (exact Hsep || apply startsWith_app).
    rewrite skipn_app, skipn_all, Nat.sub_diag, app_nil_r. reflexivity.
  - cbn [app]. rewrite split_from_nomatch by exact (H 0%nat (Nat.lt_0_succ _)).
    rewrite IH; [cbn [rev]; now rewrite <- app_assoc | exact Hsep |].
    intros k Hk. apply (H (S k)). simpl. lia.
Qed.

Lemma split_leftmost : forall a b,
    sep <> [] ->
    (forall k, (k < length a)%nat ->
               startsWith (skipn k (a ++ sep ++ b)) sep = false) ->
    split (a ++ sep ++ b) sep = a :: split b sep.
Proof. intros a b Hsep H. unfold split. now rewrite split_from_leftmost. Qed.

End SplitFacts.

(** [trim] leaves something exactly when some code unit is not white space. *)
Lemma truthy_trimStart : forall s,
    truthy (trimStart s) = negb (forallb is_whitespace s).
Proof.
  induction s as [|c s IH]; [reflexivity|].
  simpl. destruct (is_whitespace c); [exact IH | reflexivity].
Qed.

Lemma forallb_trimStart : forall s,
    forallb is_whitespace (trimStart s) = forallb is_whitespace s.
Proof.
  induction s as [|c s IH]; [reflexivity|].
  simpl. destruct (is_whitespace c) eqn:E; [exact IH|].
  simpl. now rewrite E.
Qed.

Lemma forallb_rev : forall (f : code_unit -> bool) s,
    forallb f (rev s) = forallb f s.
Proof.
  intros f s. induction s as [|c s IH]; [reflexivity|].
  simpl. rewrite forallb_app, IH. simpl. rewrite andb_true_r. apply andb_comm.
Qed.

Lemma truthy_rev : forall s, truthy (rev s) = truthy s.
Proof.
  intros [|c s]; [reflexivity|].
  simpl. destruct (rev s); reflexivity.
Qed.

Lemma truthy_trim : forall s,
    truthy (trim s) = negb (forallb is_whitespace s).
Proof.
  intros s. unfold trim, trimEnd.
  now rewrite truthy_rev, truthy_trimStart, forallb_rev, forallb_trimStart.
Qed.

(* ================================================================== *)
(** ** The validator                                                   *)
(* ================================================================== *)

Lemma forEach_check_slide : forall slides index errs,
    forEach slides index check_slide errs
    = errs ++ empty_slide_errors slides index.
Proof.
  induction slides as [|slide rest IH]; intros index errs.
  - simpl. now rewrite app_nil_r.
  - cbn [forEach empty_slide_errors]. rewrite IH.
    unfold check_slide, push. fold (slide_is_empty slide). fold (empty_msg (Z.of_nat index + 1)).
    destruct (slide_is_empty slide); [now rewrite <- app_assoc | reflexivity].
Qed.

Lemma validate_errors : forall content,
    errors (validateSlideContent content)
    = (if includes content (lit "---") then []
       else [lit "Missing slide separators (---)"])
        ++ (if startsWith content (lit "---") then []
            else [lit "Missing frontmatter at the beginning"])
        ++ empty_slide_errors (split content SEP) 0.
Proof.
  intros content. unfold validateSlideContent. cbn [errors].
  rewrite forEach_check_slide. fold SEP.
  destruct (includes content (lit "---")), (startsWith content (lit "---"));
    reflexivity.
Qed.

Lemma validate_isValid : forall content,
    isValid (validateSlideContent content)
    = (length (errors (validateSlideContent content)) =? 0)%nat.
Proof. reflexivity. Qed.

Lemma In_not_valid : forall content msg,
    In msg (errors (validateSlideContent content)) ->
    isValid (validateSlideContent content) = false.
Proof.
  intros content msg H. rewrite validate_isValid.
  destruct (errors (validateSlideContent content)); [contradiction | reflexivity].
Qed.

Lemma empty_slide_errors_last : forall segs last index,
    slide_is_empty last = true ->
    In (empty_msg (Z.of_nat (index + length (segs ++ [last]))))
       (empty_slide_errors (segs ++ [last]) index).
Proof.
  induction segs as [|seg segs IH]; intros last index Hlast.
  - simpl. rewrite Hlast. left. f_equal. lia.
  - cbn [app empty_slide_errors length]. apply in_or_app. right.
    replace (index + S (length (segs ++ [last])))%nat
      with (S index + length (segs ++ [last]))%nat by lia.
    now apply IH.
Qed.

(** Splitting a text that ends with the separator: the last segment is
    either empty or, when the final separator shares its first line feed
    with the one before it, the three dashes and a line feed. *)
Lemma split_sep_last : forall n s cur,
    (length s <= n)%nat ->
    EndsWithSep s ->
    exists segs last,
      split_from SEP s 0 cur = segs ++ [last]
      /\ (last = [] \/ last = lit "---" ++ LF).
Proof.
  induction n as [|n IH]; intros s cur Hlen [a Ha].
  - subst s. rewrite length_app in Hlen. simpl in Hlen. lia.
  - destruct (startsWith s SEP) eqn:E.
    + rewrite split_from_match by (exact E || discriminate).
      pose proof (startsWith_inv _ _ E) as Hs.
      destruct (le_lt_dec 5 (length a)) as [Hge|Hlt].
      * assert (Hrest : skipn (length SEP) s = skipn 5 a ++ SEP).
        { subst s. change (length SEP) with 5%nat. rewrite skipn_app.
          replace (5 - length a)%nat with 0%nat by lia. reflexivity. }
        destruct (IH (skipn (length SEP) s) []) as (segs & last & Hsp & Hl).
        { rewrite length_skipn. change (length SEP) with 5%nat. lia. }
        { now exists (skipn 5 a). }
        exists (rev cur :: segs), last. now rewrite Hsp.
      * subst s.
        destruct a as [|a0 [|a1 [|a2 [|a3 [|a4 a]]]]];
          try (simpl in Hlt; lia); try (cbv in Hs; discriminate Hs).
        -- exists [rev cur], []. split; [reflexivity | now left].
        -- cbv in Hs. injection Hs as -> -> -> ->.
           exists [rev cur], (lit "---" ++ LF). split; [reflexivity | now right].
    + destruct a as [|c a]; subst s; [discriminate E|].
      change ((c :: a) ++ SEP) with (c :: (a ++ SEP)) in *.
      rewrite split_from_nomatch by exact E.
      apply IH; [simpl in Hlen; lia | now exists a].
Qed.

(** The validator reports the last segment of a text ending with the
    separator. *)
Lemma validate_reports_last : forall content,
    EndsWithSep content ->
    In (empty_msg (Z.of_nat (length (split content SEP))))
       (errors (validateSlideContent content)).
Proof.
  intros content H.
  destruct (split_sep_last (length content) content [] (Nat.le_refl _) H)
    as (segs & last & Hsp & Hl).
  rewrite validate_errors. apply in_or_app. right. apply in_or_app. right.
  unfold split. rewrite Hsp.
  apply (empty_slide_errors_last segs last 0).
  destruct Hl as [-> | ->]; reflexivity.
Qed.

(* ================================================================== *)
(** ** The renderers end every block with the separator                *)
(* ================================================================== *)

Lemma EndsWithSep_base : EndsWithSep SEP.
Proof. now exists []. Qed.

Lemma EndsWithSep_cons : forall c s, EndsWithSep s -> EndsWithSep (c :: s).
Proof. intros c s [p ->]. now exists (c :: p). Qed.

Lemma EndsWithSep_app : forall a s, EndsWithSep s -> EndsWithSep (a ++ s).
Proof. intros a s [p ->]. exists (a ++ p). now rewrite app_assoc. Qed.

(** Peels a block built by [template] down to its final separator. *)
Ltac ends_with_sep :=
  unfold template; cbn [join];
  repeat first [ exact EndsWithSep_base | apply EndsWithSep_app ].

Lemma createTableOfContents_ends : forall topics,
    EndsWithSep (createTableOfContents topics).
Proof. intros topics. unfold createTableOfContents. ends_with_sep. Qed.

Lemma createComparisonSlide_ends :
  forall title leftTitle leftContent rightTitle rightContent,
    EndsWithSep
      (createComparisonSlide title leftTitle leftContent rightTitle rightContent).
Proof. intros. unfold createComparisonSlide. ends_with_sep. Qed.

Lemma createImageSlide_ends : forall title imagePath caption layout,
    EndsWithSep (createImageSlide title imagePath caption layout).
Proof.
  intros. unfold createImageSlide. destruct layout; ends_with_sep.
Qed.

Section RenderingFacts.

Variable toLowerCase : jsstring -> jsstring.

Lemma render_item_ends : forall title author item index slides,
    Forall EndsWithSep slides ->
    Forall EndsWithSep (render_item toLowerCase title author item index slides).
Proof.
  intros title author item index slides H. unfold render_item.
  destruct (includes (toLowerCase item) (lit "introduction"));
    [|destruct (includes (toLowerCase item) (lit "conclusion"));
      [|destruct (includes (toLowerCase item) (lit "q&a"))]];
    unfold push; apply Forall_app; (split; [exact H|]);
    constructor; try constructor; ends_with_sep.
Qed.

Lemma forEach_render_ends : forall title author items index slides,
    Forall EndsWithSep slides ->
    Forall EndsWithSep
           (forEach items index (render_item toLowerCase title author) slides).
Proof.
  induction items as [|item items IH]; intros index slides H; [exact H|].
  cbn [forEach]. apply IH. now apply render_item_ends.
Qed.

Lemma forEach_render_nonempty : forall title author items index slides,
    slides <> [] ->
    forEach items index (render_item toLowerCase title author) slides <> [].
Proof.
  induction items as [|item items IH]; intros index slides H; [exact H|].
  cbn [forEach]. apply IH. unfold render_item.
  destruct (if includes (toLowerCase item) (lit "introduction") then _ else _).
  unfold push. destruct slides; discriminate.
Qed.

Lemma join_ends : forall slides,
    slides <> [] -> Forall EndsWithSep slides -> EndsWithSep (join slides LF).
Proof.
  induction slides as [|slide rest IH]; intros Hne H; [congruence|].
  inversion H as [|? ? Hslide Hrest]; subst.
  destruct rest as [|next rest]; [exact Hslide|].
  change (join (slide :: next :: rest) LF)
    with (slide ++ LF ++ join (next :: rest) LF).
  do 2 apply EndsWithSep_app. apply IH; [discriminate | exact Hrest].
Qed.

Lemma createPresentationFromOutline_ends : forall title author outline theme,
    EndsWithSep
      (createPresentationFromOutline toLowerCase title author outline theme).
Proof.
  intros title author outline theme. unfold createPresentationFromOutline.
  apply join_ends.
  - apply forEach_render_nonempty. discriminate.
  - apply forEach_render_ends.
    constructor; [ends_with_sep|].
    constructor; [apply createTableOfContents_ends | constructor].
Qed.

End RenderingFacts.

(* ================================================================== *)
(** ** The outline generator                                           *)
(* ================================================================== *)

Lemma slideCount_range : forall duration, 5 <= slideCount duration <= 20.
Proof. intros duration. unfold slideCount. lia. Qed.

(** On the slide counts the clamp allows, the binary64 product with 0.6
    and its floor give the integer part of three fifths. *)
Lemma contentSlides_exact : forall slides,
    5 <= slides <= 20 ->
    Math_floor (PrimFloat.mul (toNumber slides) 0x1.3333333333333p-1%float)
    = 3 * slides / 5.
Proof.
  intros slides H.
  assert (Hcases : slides = 5 \/ slides = 6 \/ slides = 7 \/ slides = 8
                   \/ slides = 9 \/ slides = 10 \/ slides = 11 \/ slides = 12
                   \/ slides = 13 \/ slides = 14 \/ slides = 15 \/ slides = 16
                   \/ slides = 17 \/ slides = 18 \/ slides = 19 \/ slides = 20)
    by lia.
  repeat (destruct Hcases as [-> | Hcases]; [vm_compute; reflexivity|]).
  subst slides. vm_compute. reflexivity.
Qed.

Lemma push_content_app : forall n i outline,
    push_content n i outline = outline ++ push_content n i [].
Proof.
  induction n as [|n IH]; intros i outline; cbn [push_content].
  - now rewrite app_nil_r.
  - rewrite IH. rewrite (IH _ (push [] _)). unfold push.
    now rewrite <- app_assoc.
Qed.

Lemma push_content_length : forall n i outline,
    length (push_content n i outline) = (length outline + n)%nat.
Proof.
  induction n as [|n IH]; intros i outline; cbn [push_content].
  - lia.
  - rewrite IH. unfold push. rewrite length_app. simpl. lia.
Qed.

Lemma outline_length : forall topic duration,
    Z.of_nat (length (generatePresentationOutline topic duration))
    = outline_size (slideCount duration).
Proof.
  intros topic duration. unfold generatePresentationOutline, outline_size.
  pose proof (slideCount_range duration) as H.
  rewrite contentSlides_exact by exact H.
  rewrite length_firstn. unfold push. rewrite !length_app, push_content_length.
  simpl length. revert H. generalize (slideCount duration). intros slides H.
  assert (0 <= 3 * slides / 5) by (apply Z.div_pos; lia).
  generalize dependent (3 * slides / 5). intros q Hq. lia.
Qed.

Lemma outline_head : forall topic duration,
    exists rest,
      generatePresentationOutline topic duration
      = (lit "Title: " ++ topic) :: rest.
Proof.
  intros topic duration. unfold generatePresentationOutline.
  pose proof (slideCount_range duration) as H.
  destruct (Z.to_nat (slideCount duration)) as [|k] eqn:E; [lia|].
  rewrite push_content_app. unfold push. cbn [app firstn].
  eexists. reflexivity.
Qed.

(* ================================================================== *)
(** ** The validator against its specification                         *)
(* ================================================================== *)

Lemma is_content_line_spec : forall line,
    is_content_line line = negb (is_stripped line).
Proof.
  intros line. unfold is_content_line, is_stripped, is_blank.
  rewrite truthy_trim, !negb_orb. reflexivity.
Qed.

Lemma slide_is_empty_spec : forall slide,
    slide_is_empty slide
    = match remaining_lines slide with [] => true | _ :: _ => false end.
Proof.
  intros slide. unfold slide_is_empty, remaining_lines.
  rewrite (filter_ext _ _ is_content_line_spec).
  destruct (filter _ _); reflexivity.
Qed.

Lemma empty_slide_errors_spec : forall slides index,
    empty_slide_errors slides index
    = flat_map
        (fun numbered : nat * jsstring =>
           match remaining_lines (snd numbered) with
           | [] => [empty_msg (Z.of_nat (fst numbered))]
           | _ :: _ => []
           end)
        (combine (seq (S index) (length slides)) slides).
Proof.
  induction slides as [|slide rest IH]; intros index; [reflexivity|].
  cbn [empty_slide_errors length seq combine flat_map fst snd].
  rewrite IH, slide_is_empty_spec.
  replace (Z.of_nat index + 1) with (Z.of_nat (S index)) by lia.
  destruct (remaining_lines slide); reflexivity.
Qed.

Lemma validate_refines_spec : forall content,
    validateSlideContent content = validate_spec content.
Proof.
  intros content.
  assert (He : errors (validateSlideContent content)
               = errors (validate_spec content)).
  { rewrite validate_errors. cbn [validate_spec errors].
    unfold segment_errors. now rewrite empty_slide_errors_spec. }
  pose proof (validate_isValid content) as Hv. rewrite He in Hv.
  destruct (validateSlideContent content) as [v e]. cbn [isValid errors] in *.
  subst v e. unfold validate_spec. cbn [errors]. f_equal.
  match goal with |- (length ?l =? 0)%nat = _ => destruct l; reflexivity end.
Qed.

Lemma empty_slide_errors_nth : forall slides i segment index,
    nth_error slides i = Some segment ->
    slide_is_empty segment = true ->
    In (empty_msg (Z.of_nat (index + i) + 1)) (empty_slide_errors slides index).
Proof.
  induction slides as [|slide rest IH]; intros i segment index Hn He.
  - destruct i; discriminate.
  - cbn [empty_slide_errors]. apply in_or_app. destruct i as [|i].
    + injection Hn as ->. rewrite He. left. left. f_equal. lia.
    + right. replace (index + S i)%nat with (S index + i)%nat by lia.
      now apply IH with (segment := segment).
Qed.

Lemma stripped_lines_empty : forall segment,
    (forall line, In line (split segment LF) ->
                  is_blank line = true \/ includes line (lit ":") = true) ->
    slide_is_empty segment = true.
Proof.
  intros segment H. unfold slide_is_empty.
  replace (filter is_content_line (split segment LF)) with (@nil jsstring);
    [reflexivity|].
  symmetry. induction (split segment LF) as [|line lines IH]; [reflexivity|].
  cbn [filter]. rewrite is_content_line_spec. unfold is_stripped.
  destruct (H line (or_introl eq_refl)) as [-> | ->];
    rewrite ?orb_true_r; cbn [orb negb];
    apply IH; intros l Hl; apply H; now right.
Qed.

(* ================================================================== *)
(** ** The recommendation helpers against the rule tables              *)
(* ================================================================== *)

Section RecommendationFacts.

Variable toLowerCase : jsstring -> jsstring.

Lemma recommendTheme_rules : forall topic style,
    recommendTheme toLowerCase topic style
    = first_theme theme_rules (lower_style toLowerCase style)
                  (toLowerCase topic).
Proof.
  intros topic style. unfold recommendTheme.
  unfold theme_rules, first_theme, theme_rule_matches.
  cbn [existsb style_keywords topic_keywords rule_theme].
  now rewrite ?orb_false_r, ?orb_assoc.
Qed.

Lemma recommendLayout_rules : forall description,
    recommendLayout toLowerCase description
    = first_layout layout_rules (toLowerCase description).
Proof.
  intros description. unfold recommendLayout.
  unfold layout_rules, first_layout, layout_rule_matches.
  cbn [existsb layout_keywords rule_layout].
  now rewrite ?orb_false_r, ?orb_assoc.
Qed.

Lemma first_theme_in : forall rules styleLower topicLower,
    Forall (fun r => In (rule_theme r) SLIDEV_THEMES) rules ->
    In (first_theme rules styleLower topicLower) SLIDEV_THEMES.
Proof.
  induction rules as [|r rules IH]; intros styleLower topicLower H.
  - cbn [first_theme]. now left.
  - inversion H; subst. cbn [first_theme].
    destruct (theme_rule_matches styleLower topicLower r); auto.
Qed.

Lemma first_layout_in : forall rules descLower,
    Forall (fun r => In (rule_layout r) SLIDEV_LAYOUTS) rules ->
    In (first_layout rules descLower) SLIDEV_LAYOUTS.
Proof.
  induction rules as [|r rules IH]; intros descLower H.
  - cbn [first_layout]. now left.
  - inversion H; subst. cbn [first_layout].
    destruct (layout_rule_matches descLower r); auto.
Qed.

Lemma first_theme_default : forall rules styleLower topicLower,
    (forall r, In r rules -> theme_rule_matches styleLower topicLower r = false) ->
    first_theme rules styleLower topicLower = lit "seriph".
Proof.
  induction rules as [|r rules IH]; intros styleLower topicLower H;
    [reflexivity|].
  cbn [first_theme]. rewrite (H r (or_introl eq_refl)).
  apply IH. intros r' Hr'. apply H. now right.
Qed.

Lemma first_layout_default : forall rules descLower,
    (forall r, In r rules -> layout_rule_matches descLower r = false) ->
    first_layout rules descLower = lit "default".
Proof.
  induction rules as [|r rules IH]; intros descLower H; [reflexivity|].
  cbn [first_layout]. rewrite (H r (or_introl eq_refl)).
  apply IH. intros r' Hr'. apply H. now right.
Qed.

End RecommendationFacts.

(** Finds a literal in a literal list. *)
Ltac in_catalog := cbn [In]; repeat first [ left; reflexivity | right ].

Lemma theme_rules_in_catalog :
  Forall (fun r => In (rule_theme r) SLIDEV_THEMES) theme_rules.
Proof.
  unfold theme_rules, SLIDEV_THEMES.
  repeat (apply Forall_cons; [cbn [rule_theme]; in_catalog|]). apply Forall_nil.
Qed.

Lemma layout_rules_in_catalog :
  Forall (fun r => In (rule_layout r) SLIDEV_LAYOUTS) layout_rules.
Proof.
  unfold layout_rules, SLIDEV_LAYOUTS.
  repeat (apply Forall_cons; [cbn [rule_layout]; in_catalog|]). apply Forall_nil.
Qed.

(* ================================================================== *)
(** ** Claims                                                          *)
(* ================================================================== *)

(** C1 (what the code does): no deck rendered by
    [createPresentationFromOutline] passes [validateSlideContent], whatever
    the title, author, outline and theme; on the deck rendered from the
    generic outline [Title: T; Main Content 1] the front-matter block, the
    empty pieces between two consecutive separators, the layout line of the
    table of contents and the trailing piece are reported as slides 1, 3,
    4, 6 and 8; and the deck that the repository's own test expects to be
    valid is rejected as well. *)
Theorem generated_deck_is_rejected :
  (forall toLowerCase title author outline theme,
      isValid (validateSlideContent
                 (createPresentationFromOutline toLowerCase title author
                                                outline theme)) = false)
  /\ errors (validateSlideContent sample_deck)
     = [empty_msg 1; empty_msg 3; empty_msg 4; empty_msg 6; empty_msg 8]
  /\ isValid (validateSlideContent sample_deck) = false
  /\ errors (validateSlideContent test_validContent) = [empty_msg 1]
  /\ isValid (validateSlideContent test_validContent) = false.
Proof.
  split; [|repeat split; vm_compute; reflexivity].
  intros toLowerCase title author outline theme.
  eapply In_not_valid, validate_reports_last.
  apply createPresentationFromOutline_ends.
Qed.

(** C2 (amended): for every topic, [generatePresentationOutline topic 0]
    has exactly 5 items and [generatePresentationOutline topic 1000] has
    exactly 18 items (20 slides asked, 3 + 12 + 3 items available). *)
Theorem outline_clamp_lengths : forall topic,
    length (generatePresentationOutline topic 0) = 5%nat
    /\ length (generatePresentationOutline topic 1000) = 18%nat.
Proof.
  intros topic. split.
  - pose proof (outline_length topic 0) as H. vm_compute in H |- *. reflexivity.
  - pose proof (outline_length topic 1000) as H. vm_compute in H |- *. reflexivity.
Qed.

(** C2 as stated fails: at duration 1000 the outline does not have 20
    items. *)
Lemma outline_at_1000_not_20 :
  length (generatePresentationOutline (lit "t") 1000) <> 20%nat.
Proof. vm_compute. discriminate. Qed.

(** C3 (amended): for every topic and all durations [d1 < d2] whose halves
    both lie in [5, 20], the outline for [d1] is no longer than the one for
    [d2]; it is strictly shorter whenever the two slide counts differ,
    except for the slide counts 15 and 16, and 17 and 18, which give
    outlines of equal length. *)
Theorem outline_length_monotone : forall topic d1 d2,
    d1 < d2 ->
    5 <= d1 / 2 <= 20 ->
    5 <= d2 / 2 <= 20 ->
    (length (generatePresentationOutline topic d1)
     <= length (generatePresentationOutline topic d2))%nat
    /\ (slideCount d1 <> slideCount d2 ->
        ~ (slideCount d1 = 15 /\ slideCount d2 = 16) ->
        ~ (slideCount d1 = 17 /\ slideCount d2 = 18) ->
        (length (generatePresentationOutline topic d1)
         < length (generatePresentationOutline topic d2))%nat).
Proof.
  intros topic d1 d2 Hlt H1 H2.
  pose proof (outline_length topic d1) as L1.
  pose proof (outline_length topic d2) as L2.
  assert (Hmono : d1 / 2 <= d2 / 2) by (apply Z.div_le_mono; lia).
  unfold slideCount, outline_size in *.
  rewrite (Z.min_r 20 (d1 / 2)), (Z.max_r 5 (d1 / 2)) in * by lia.
  rewrite (Z.min_r 20 (d2 / 2)), (Z.max_r 5 (d2 / 2)) in * by lia.
  revert L1 L2 H1 H2 Hmono.
  generalize (length (generatePresentationOutline topic d1)).
  generalize (length (generatePresentationOutline topic d2)).
  generalize (d1 / 2). generalize (d2 / 2).
  intros s2 s1 n2 n1 L1 L2 H1 H2 Hmono.
  pose proof (Z.div_mod (3 * s1) 5 ltac:(lia)) as E1.
  pose proof (Z.mod_pos_bound (3 * s1) 5 ltac:(lia)) as B1.
  pose proof (Z.div_mod (3 * s2) 5 ltac:(lia)) as E2.
  pose proof (Z.mod_pos_bound (3 * s2) 5 ltac:(lia)) as B2.
  split; [lia|]. intros Hne H15 H17. lia.
Qed.

Lemma outline_length_monotone_witness :
  (length (generatePresentationOutline (lit "Test Topic") 10)
   <= length (generatePresentationOutline (lit "Test Topic") 40))%nat
  /\ (slideCount 10 <> slideCount 40 ->
      ~ (slideCount 10 = 15 /\ slideCount 40 = 16) ->
      ~ (slideCount 10 = 17 /\ slideCount 40 = 18) ->
      (length (generatePresentationOutline (lit "Test Topic") 10)
       < length (generatePresentationOutline (lit "Test Topic") 40))%nat).
Proof.
  apply (outline_length_monotone (lit "Test Topic") 10 40);
    [ reflexivity
    | vm_compute; split; discriminate
    | vm_compute; split; discriminate ].
Defined.

(** C3 as stated fails: durations 30 and 32 are in range and have the
    distinct slide counts 15 and 16, yet both outlines have 15 items. *)
Lemma outline_30_32_not_strict :
  30 < 32
  /\ 5 <= 30 / 2 <= 20
  /\ 5 <= 32 / 2 <= 20
  /\ slideCount 30 <> slideCount 32
  /\ ~ (length (generatePresentationOutline (lit "t") 30)
        < length (generatePresentationOutline (lit "t") 32))%nat.
Proof.
  repeat split; try (vm_compute; discriminate); try reflexivity.
  vm_compute. lia.
Qed.

(** C5: for every topic, the outline for 10 minutes is the three header
    items followed by "Main Content 1" and "Main Content 2" and nothing
    else, and the outline for 30 minutes is the three headers, "Main
    Content 1" to "Main Content 9", then "Key Takeaways", "Conclusion" and
    "Q&A", 15 items. *)
Theorem outline_at_10_and_30 : forall topic,
    generatePresentationOutline topic 10
    = [ lit "Title: " ++ topic;
        lit "Introduction and Overview";
        lit "Background and Context";
        lit "Main Content 1";
        lit "Main Content 2" ]
    /\ generatePresentationOutline topic 30
       = [ lit "Title: " ++ topic;
           lit "Introduction and Overview";
           lit "Background and Context";
           lit "Main Content 1"; lit "Main Content 2"; lit "Main Content 3";
           lit "Main Content 4"; lit "Main Content 5"; lit "Main Content 6";
           lit "Main Content 7"; lit "Main Content 8"; lit "Main Content 9";
           lit "Key Takeaways";
           lit "Conclusion";
           lit "Q&A" ]
    /\ length (generatePresentationOutline topic 10) = 5%nat
    /\ length (generatePresentationOutline topic 30) = 15%nat.
Proof.
  intros topic. repeat split; vm_compute; reflexivity.
Qed.

(** C9: for every topic and every integer duration, the outline is not
    empty and its first item is "Title: " followed by the topic. *)
Theorem outline_title_first : forall topic duration,
    generatePresentationOutline topic duration <> []
    /\ hd_error (generatePresentationOutline topic duration)
       = Some (lit "Title: " ++ topic).
Proof.
  intros topic duration.
  destruct (outline_head topic duration) as [rest ->].
  split; [discriminate | reflexivity].
Qed.

(** C4: for every text that ends with the separator (a line feed, three
    dashes, a line feed), [validateSlideContent] reports the last segment
    of the split as an empty slide, under its 1-based index, and returns
    [isValid = false]; and every output of [createPresentationFromOutline],
    [createComparisonSlide] and [createImageSlide] ends with that
    separator. *)
Theorem validate_trailing_separator :
  (forall prefix,
      In (empty_msg (Z.of_nat (length (split (prefix ++ SEP) SEP))))
         (errors (validateSlideContent (prefix ++ SEP)))
      /\ isValid (validateSlideContent (prefix ++ SEP)) = false)
  /\ (forall toLowerCase title author outline theme,
         exists prefix,
           createPresentationFromOutline toLowerCase title author outline theme
           = prefix ++ SEP)
  /\ (forall title leftTitle leftContent rightTitle rightContent,
         exists prefix,
           createComparisonSlide title leftTitle leftContent
                                 rightTitle rightContent
           = prefix ++ SEP)
  /\ (forall title imagePath caption layout,
         exists prefix,
           createImageSlide title imagePath caption layout = prefix ++ SEP).
Proof.
  split; [|split; [|split]].
  - intros prefix.
    assert (H : EndsWithSep (prefix ++ SEP)) by now exists prefix.
    apply validate_reports_last in H. split; [exact H|].
    now apply In_not_valid in H.
  - intros. apply createPresentationFromOutline_ends.
  - intros. apply createComparisonSlide_ends.
  - intros. apply createImageSlide_ends.
Qed.

(** C6 (amended): in both layouts the italic caption is on a line of its
    own below the title heading.  With layout [image] one blank line
    separates the heading "# T" from "*cap*"; with layout [image-left]
    three blank lines do.  The two outputs differ in the layout line and in
    those two extra blank lines, and in nothing else. *)
Theorem image_slide_caption_placement :
  split (createImageSlide (lit "T") (lit "p.png") (Some (lit "cap"))
                          LayoutImage) LF
  = [ lit "---"; lit "layout: image"; lit "image: p.png"; lit "---";
      lit "";
      lit "# T";
      lit "";
      lit "*cap*";
      lit ""; lit "---"; lit "" ]
  /\ split (createImageSlide (lit "T") (lit "p.png") (Some (lit "cap"))
                             LayoutImageLeft) LF
     = [ lit "---"; lit "layout: image-left"; lit "image: p.png"; lit "---";
         lit "";
         lit "# T";
         lit ""; lit ""; lit "";
         lit "*cap*";
         lit ""; lit "---"; lit "" ]
  /\ (forall title imagePath c caption,
         createImageSlide title imagePath (Some (c :: caption)) LayoutImage
         = template
             [ lit "---"; lit "layout: image"; lit "image: " ++ imagePath;
               lit "---";
               lit "";
               lit "# " ++ title;
               lit "";
               lit "*" ++ (c :: caption) ++ lit "*";
               lit ""; lit "---"; lit "" ]
         /\ createImageSlide title imagePath (Some (c :: caption))
                             LayoutImageLeft
            = template
                [ lit "---"; lit "layout: image-left";
                  lit "image: " ++ imagePath; lit "---";
                  lit "";
                  lit "# " ++ title;
                  lit ""; lit ""; lit "";
                  lit "*" ++ (c :: caption) ++ lit "*";
                  lit ""; lit "---"; lit "" ]).
Proof.
  split; [vm_compute; reflexivity|]. split; [vm_compute; reflexivity|].
  intros title imagePath c caption.
  unfold createImageSlide, template. cbn [truthy join layout_name].
  split; repeat (rewrite <- ?app_assoc; cbn [app lit map list_ascii_of_string]);
    reflexivity.
Qed.

(** C6 as stated fails: with layout [image] no line of the output holds
    both the heading "# T" and the caption "*cap*"; the heading is the
    sixth line and the caption the eighth. *)
Lemma image_caption_not_on_heading_line :
  existsb (fun line => startsWith line (lit "# T")
                       && includes line (lit "*cap*"))
          (split (createImageSlide (lit "T") (lit "p.png")
                                   (Some (lit "cap")) LayoutImage) LF)
  = false
  /\ nth_error (split (createImageSlide (lit "T") (lit "p.png")
                                        (Some (lit "cap")) LayoutImage) LF) 5
     = Some (lit "# T")
  /\ nth_error (split (createImageSlide (lit "T") (lit "p.png")
                                        (Some (lit "cap")) LayoutImage) LF) 7
     = Some (lit "*cap*").
Proof. repeat split; vm_compute; reflexivity. Qed.

(** C7 (amended): [recommendTheme] is the first match over [theme_rules],
    tested top to bottom, each rule looking at the lower-cased style first
    and then at the lower-cased topic; the topic is only searched for
    "research" (rule 1), "tech", "programming", "development" (rule 2),
    "creative" (rule 3) and "business" (rule 4).  In particular, for every
    topic whose lower-cased text contains "research" and no style argument,
    the result is "academic". *)
Theorem theme_rules_first_match : forall toLowerCase topic style,
    recommendTheme toLowerCase topic style
    = first_theme theme_rules (lower_style toLowerCase style)
                  (toLowerCase topic)
    /\ (includes (toLowerCase topic) (lit "research") = true ->
        recommendTheme toLowerCase topic None = lit "academic").
Proof.
  intros toLowerCase topic style. split.
  - apply recommendTheme_rules.
  - intros H. unfold recommendTheme. now rewrite H, orb_true_r.
Qed.

Lemma theme_rules_first_match_witness :
  includes (toLowerCase_ascii (lit "AI research breakthroughs"))
           (lit "research") = true
  /\ recommendTheme toLowerCase_ascii (lit "AI research breakthroughs") None
     = lit "academic".
Proof.
  split; [reflexivity|].
  apply (theme_rules_first_match toLowerCase_ascii
                                 (lit "AI research breakthroughs") None).
  reflexivity.
Defined.

(** C7 as stated fails: the lower-cased topic "academic writing" contains
    "academic", there is no style, and the result is "seriph". *)
Lemma academic_topic_gets_seriph :
  includes (toLowerCase_ascii (lit "Academic writing")) (lit "academic") = true
  /\ recommendTheme toLowerCase_ascii (lit "Academic writing") None
     = lit "seriph"
  /\ recommendTheme toLowerCase_ascii (lit "Academic writing") None
     <> lit "academic".
Proof.
  split; [reflexivity|]. split; [reflexivity|]. vm_compute. discriminate.
Qed.

(** C8: [validateSlideContent] is the validator of the specification: it
    splits the text on the separator and, for each segment numbered from 1,
    strips the lines that are blank, start with three dashes or contain a
    colon, reporting the segment when no line is left.  Hence a segment
    whose lines are all blank or hold a colon is reported as empty, as the
    second slide of [ratio_deck], whose only line is "Ratio: 3:1". *)
Theorem validator_strips_colon_lines :
  (forall content, validateSlideContent content = validate_spec content)
  /\ (forall content i segment,
         nth_error (split content SEP) i = Some segment ->
         (forall line, In line (split segment LF) ->
                       is_blank line = true \/ includes line (lit ":") = true) ->
         In (empty_msg (Z.of_nat i + 1)) (errors (validateSlideContent content))
         /\ isValid (validateSlideContent content) = false)
  /\ (split ratio_deck SEP
      = [ template [lit "---"; lit ""; lit "# Mixing"; lit ""];
          lit "Ratio: 3:1" ]
      /\ is_blank (lit "Ratio: 3:1") = false
      /\ errors (validateSlideContent ratio_deck) = [empty_msg 2]).
Proof.
  split; [exact validate_refines_spec|]. split.
  - intros content i segment Hn Hlines.
    assert (H : In (empty_msg (Z.of_nat i + 1))
                   (errors (validateSlideContent content))).
    { rewrite validate_errors. apply in_or_app. right. apply in_or_app. right.
      apply (empty_slide_errors_nth (split content SEP) i segment 0 Hn).
      now apply stripped_lines_empty. }
    split; [exact H | now apply In_not_valid in H].
  - repeat split; vm_compute; reflexivity.
Qed.

Lemma validator_strips_colon_lines_witness :
  nth_error (split ratio_deck SEP) 1 = Some (lit "Ratio: 3:1")
  /\ In (empty_msg 2) (errors (validateSlideContent ratio_deck))
  /\ isValid (validateSlideContent ratio_deck) = false.
Proof.
  split; [reflexivity|].
  destruct validator_strips_colon_lines as (_ & H & _).
  apply (H ratio_deck 1%nat (lit "Ratio: 3:1")); [reflexivity|].
  intros line Hline. vm_compute in Hline.
  destruct Hline as [<- | []]. right. reflexivity.
Defined.

(** C10: [recommendTheme] and [recommendLayout] are total functions whose
    result is always a member of [SLIDEV_THEMES], respectively
    [SLIDEV_LAYOUTS]; [recommendLayout] is the first match over
    [layout_rules]; when no rule matches the results are "seriph" and
    "default", and so they are on the empty string. *)
Theorem recommendations_in_catalog : forall toLowerCase,
    (forall topic style,
        In (recommendTheme toLowerCase topic style) SLIDEV_THEMES)
    /\ (forall description,
           In (recommendLayout toLowerCase description) SLIDEV_LAYOUTS)
    /\ (forall description,
           recommendLayout toLowerCase description
           = first_layout layout_rules (toLowerCase description))
    /\ (forall topic style,
           (forall r, In r theme_rules ->
                      theme_rule_matches (lower_style toLowerCase style)
                                         (toLowerCase topic) r = false) ->
           recommendTheme toLowerCase topic style = lit "seriph")
    /\ (forall description,
           (forall r, In r layout_rules ->
                      layout_rule_matches (toLowerCase description) r = false) ->
           recommendLayout toLowerCase description = lit "default")
    /\ (toLowerCase (lit "") = lit "" ->
        recommendTheme toLowerCase (lit "") None = lit "seriph"
        /\ recommendTheme toLowerCase (lit "") (Some (lit "")) = lit "seriph"
        /\ recommendLayout toLowerCase (lit "") = lit "default").
Proof.
  intros toLowerCase. repeat apply conj.
  - intros topic style. rewrite recommendTheme_rules.
    apply first_theme_in, theme_rules_in_catalog.
  - intros description. rewrite recommendLayout_rules.
    apply first_layout_in, layout_rules_in_catalog.
  - apply recommendLayout_rules.
  - intros topic style H. rewrite recommendTheme_rules.
    now apply first_theme_default.
  - intros description H. rewrite recommendLayout_rules.
    now apply first_layout_default.
  - intros H. unfold recommendTheme, recommendLayout, lower_style.
    rewrite H. repeat split; reflexivity.
Qed.

Lemma recommendations_in_catalog_witness :
  recommendTheme toLowerCase_ascii (lit "cooking") None = lit "seriph"
  /\ recommendLayout toLowerCase_ascii (lit "A plain slide") = lit "default"
  /\ recommendTheme toLowerCase_ascii (lit "") None = lit "seriph".
Proof.
  destruct (recommendations_in_catalog toLowerCase_ascii)
    as (_ & _ & _ & Htheme & Hlayout & Hempty).
  split; [|split].
  - apply Htheme. intros r Hr. cbn [In theme_rules] in Hr.
    repeat (destruct Hr as [<- | Hr]; [reflexivity|]). contradiction.
  - apply Hlayout. intros r Hr. cbn [In layout_rules] in Hr.
    repeat (destruct Hr as [<- | Hr]; [reflexivity|]). contradiction.
  - apply Hempty. reflexivity.
Defined.

(* ================================================================== *)
(** ** Further properties: split, join and includes                    *)
(* ================================================================== *)

Lemma str_eqb_eq : forall a b, str_eqb a b = true <-> a = b.
Proof.
  induction a as [|x a IH]; intros [|y b]; simpl; split; intros H;
    try reflexivity; try discriminate.
  - apply andb_prop in H as [Hx Ha]. apply N.eqb_eq in Hx. apply IH in Ha.
    now subst.
  - injection H as -> ->. rewrite N.eqb_refl. now apply IH.
Qed.

Lemma split_from_nonempty : forall sep s k cur, split_from sep s k cur <> [].
Proof.
  intros sep. induction s as [|c s IH]; intros k cur; cbn [split_from].
  - discriminate.
  - destruct k; [|apply IH].
    destruct (startsWith (c :: s) sep); [discriminate | apply IH].
Qed.

Lemma split_nonempty : forall s sep, split s sep <> [].
Proof. intros. apply split_from_nonempty. Qed.

Lemma join_cons : forall x rest sep,
    rest <> [] -> join (x :: rest) sep = x ++ sep ++ join rest sep.
Proof. intros x [|y rest] sep H; [congruence | reflexivity]. Qed.

Lemma join_app : forall a b sep,
    a <> [] -> b <> [] ->
    join (a ++ b) sep = join a sep ++ sep ++ join b sep.
Proof.
  induction a as [|x a IH]; intros b sep Ha Hb; [congruence|].
  destruct a as [|y a].
  - cbn [app]. now rewrite join_cons.
  - change ((x :: y :: a) ++ b) with (x :: y :: (a ++ b)).
    rewrite join_cons by discriminate.
    change (y :: (a ++ b)) with ((y :: a) ++ b).
    rewrite IH by (discriminate || exact Hb).
    rewrite (join_cons x (y :: a)) by discriminate. now rewrite <- !app_assoc.
Qed.

Lemma join_push : forall xs x sep,
    xs <> [] -> join (push xs x) sep = join xs sep ++ sep ++ x.
Proof. intros. unfold push. rewrite join_app by (assumption || discriminate). reflexivity. Qed.

(** Splitting and joining back with the same separator is the identity. *)
Lemma join_split_from : forall sep,
    sep <> [] ->
    forall n s cur,
      (length s <= n)%nat -> join (split_from sep s 0 cur) sep = rev cur ++ s.
Proof.
  intros sep Hsep. induction n as [|n IH]; intros s cur Hlen.
  - destruct s; [|simpl in Hlen; lia]. cbn. now rewrite app_nil_r.
  - destruct s as [|c s]; [cbn; now rewrite app_nil_r|].
    destruct (startsWith (c :: s) sep) eqn:E.
    + rewrite split_from_match by assumption.
      rewrite join_cons by apply split_from_nonempty.
      rewrite IH.
      * cbn [rev app]. now rewrite <- (startsWith_inv sep (c :: s) E).
      * assert (0 < length sep)%nat
          by (destruct sep; [congruence | simpl; lia]).
        rewrite length_skipn. cbn [length] in Hlen |- *. lia.
    + rewrite split_from_nomatch by exact E.
      rewrite IH by (simpl in Hlen; lia).
      cbn [rev]. now rewrite <- app_assoc.
Qed.

Lemma join_split : forall s sep, sep <> [] -> join (split s sep) sep = s.
Proof.
  intros s sep H. unfold split.
  now rewrite (join_split_from sep H (length s) s [] (Nat.le_refl _)).
Qed.

Lemma SEP_nonempty : SEP <> [].
Proof. discriminate. Qed.

(** A text is its first [n] pieces followed by the remaining ones. *)
Lemma join_firstn_skipn : forall (xs : list jsstring) sep n,
    (0 < n < length xs)%nat ->
    join xs sep = join (firstn n xs) sep ++ sep ++ join (skipn n xs) sep.
Proof.
  intros xs sep n H. rewrite <- (firstn_skipn n xs) at 1.
  apply join_app.
  - intros E. apply (f_equal (@length _)) in E. rewrite length_firstn in E.
    simpl in E. lia.
  - intros E. apply (f_equal (@length _)) in E. rewrite length_skipn in E.
    simpl in E. lia.
Qed.

Lemma join_insert : forall (xs : list jsstring) sep n x,
    (0 < n < length xs)%nat ->
    join (firstn n xs ++ x :: skipn n xs) sep
    = join (firstn n xs) sep ++ sep ++ x ++ sep ++ join (skipn n xs) sep.
Proof.
  intros xs sep n x H.
  assert (Hs : skipn n xs <> []).
  { intros E. apply (f_equal (@length _)) in E. rewrite length_skipn in E.
    simpl in E. lia. }
  rewrite join_app; [|intros E|discriminate].
  - now rewrite join_cons by exact Hs.
  - apply (f_equal (@length _)) in E. rewrite length_firstn in E.
    simpl in E. lia.
Qed.

(* ================================================================== *)
(** ** Further properties: the add-slide handler                       *)
(* ================================================================== *)

(** Without a position, with position 0, or with a position that is not
    below the number of slides, the handler appends: the text written back
    is the text read, the separator and the new slide. *)
Theorem add_slide_appends : forall content slideContent position,
    (position = None
     \/ position = Some 0
     \/ exists p, position = Some p
                  /\ Z.of_nat (length (split content SEP)) <= p) ->
    add_slide content slideContent position = content ++ SEP ++ slideContent.
Proof.
  intros content slideContent position H. unfold add_slide.
  assert (Hpush : join (push (split content SEP) slideContent) SEP
                  = content ++ SEP ++ slideContent).
  { rewrite join_push by apply split_nonempty.
    now rewrite join_split by exact SEP_nonempty. }
  destruct H as [-> | [-> | (p & -> & Hp)]]; [exact Hpush | exact Hpush |].
  destruct (p =? 0); cbn [negb andb]; [exact Hpush|].
  destruct (p <? _) eqn:E; [apply Z.ltb_lt in E; lia | exact Hpush].
Qed.

Lemma add_slide_appends_witness :
  add_slide three_slides (lit "X") (Some 0)
  = three_slides ++ SEP ++ lit "X".
Proof.
  apply (add_slide_appends three_slides (lit "X") (Some 0)).
  right. left. reflexivity.
Defined.

(** With a position strictly between 0 and the number of slides, the new
    slide goes between the slides before and from that position: the text
    read is cut at a separator and the slide is put there, between two
    separators. *)
Theorem add_slide_inserts : forall content slideContent p,
    0 < p < Z.of_nat (length (split content SEP)) ->
    let before := join (firstn (Z.to_nat p) (split content SEP)) SEP in
    let after := join (skipn (Z.to_nat p) (split content SEP)) SEP in
    content = before ++ SEP ++ after
    /\ add_slide content slideContent (Some p)
       = before ++ SEP ++ slideContent ++ SEP ++ after.
Proof.
  intros content slideContent p Hp before after. subst before after.
  assert (Hn : (0 < Z.to_nat p < length (split content SEP))%nat) by lia.
  split.
  - rewrite <- join_firstn_skipn by exact Hn.
    symmetry. apply join_split, SEP_nonempty.
  - unfold add_slide.
    replace (p =? 0) with false by (symmetry; apply Z.eqb_neq; lia).
    replace (p <? Z.of_nat (length (split content SEP))) with true
      by (symmetry; apply Z.ltb_lt; lia).
    cbn [negb andb]. unfold splice_insert.
    replace (p <? 0) with false by (symmetry; apply Z.ltb_ge; lia).
    rewrite Z.min_l by lia. now apply join_insert.
Qed.

Lemma add_slide_inserts_witness :
  three_slides = lit "a" ++ SEP ++ template [lit "b"; lit "---"; lit "c"]
  /\ add_slide three_slides (lit "X") (Some 1)
     = lit "a" ++ SEP ++ lit "X" ++ SEP
           ++ template [lit "b"; lit "---"; lit "c"].
Proof.
  apply (add_slide_inserts three_slides (lit "X") 1).
  vm_compute. split; reflexivity.
Defined.

(** A negative position counts from the end: at or beyond minus the number
    of slides the new slide becomes the first one, otherwise it is put
    where the position plus the number of slides would put it. *)
Theorem add_slide_negative_position : forall content slideContent p,
    p < 0 ->
    let n := Z.of_nat (length (split content SEP)) in
    (p <= - n ->
     add_slide content slideContent (Some p)
     = slideContent ++ SEP ++ content)
    /\ (- n < p ->
        add_slide content slideContent (Some p)
        = add_slide content slideContent (Some (n + p))).
Proof.
  intros content slideContent p Hp n. subst n.
  pose proof (split_nonempty content SEP) as Hne.
  unfold add_slide.
  replace (p =? 0) with false by (symmetry; apply Z.eqb_neq; lia).
  replace (p <? Z.of_nat (length (split content SEP))) with true
    by (symmetry; apply Z.ltb_lt; lia).
  cbn [negb andb]. unfold splice_insert.
  replace (p <? 0) with true by (symmetry; apply Z.ltb_lt; lia).
  split; intros H.
  - rewrite Z.max_r by lia. cbn [Z.to_nat firstn skipn app].
    rewrite join_cons by exact Hne.
    now rewrite join_split by exact SEP_nonempty.
  - replace (Z.of_nat (length (split content SEP)) + p =? 0) with false
      by (symmetry; apply Z.eqb_neq; lia).
    replace (Z.of_nat (length (split content SEP)) + p
             <? Z.of_nat (length (split content SEP))) with true
      by (symmetry; apply Z.ltb_lt; lia).
    cbn [negb andb].
    replace (Z.of_nat (length (split content SEP)) + p <? 0) with false
      by (symmetry; apply Z.ltb_ge; lia).
    rewrite Z.max_l, Z.min_l by lia. reflexivity.
Qed.

Lemma add_slide_negative_position_witness :
  add_slide three_slides (lit "X") (Some (-3))
  = lit "X" ++ SEP ++ three_slides
  /\ add_slide three_slides (lit "X") (Some (-1))
     = add_slide three_slides (lit "X") (Some 2).
Proof.
  split.
  - apply (add_slide_negative_position three_slides (lit "X") (-3));
      [reflexivity | vm_compute; discriminate].
  - apply (add_slide_negative_position three_slides (lit "X") (-1));
      reflexivity.
Defined.

Lemma includes_unfold : forall s pat,
    includes s pat
    = startsWith s pat
      || match s with [] => false | _ :: s' => includes s' pat end.
Proof. intros [|c s] pat; reflexivity. Qed.

Lemma includes_intro : forall pat a b, includes (a ++ pat ++ b) pat = true.
Proof.
  intros pat a b. induction a as [|c a IH].
  - cbn [app]. rewrite includes_unfold. now rewrite startsWith_app.
  - cbn [app includes]. rewrite IH. apply orb_true_r.
Qed.

Lemma includes_elim : forall pat s,
    includes s pat = true -> exists a b, s = a ++ pat ++ b.
Proof.
  intros pat. induction s as [|c s IH]; intros H.
  - cbn [includes] in H. rewrite orb_false_r in H.
    exists [], (skipn (length pat) []). now apply startsWith_inv.
  - cbn [includes] in H. apply orb_prop in H as [H | H].
    + exists [], (skipn (length pat) (c :: s)). now apply startsWith_inv.
    + destruct (IH H) as (a & b & ->). now exists (c :: a), b.
Qed.

Lemma includes_app_l : forall a b pat,
    includes a pat = true -> includes (a ++ b) pat = true.
Proof.
  intros a b pat H. apply includes_elim in H as (x & y & ->).
  rewrite <- !app_assoc. apply includes_intro.
Qed.

Lemma includes_app_r : forall a b pat,
    includes b pat = true -> includes (a ++ b) pat = true.
Proof.
  intros a b pat H. apply includes_elim in H as (x & y & ->).
  rewrite app_assoc. apply includes_intro.
Qed.

(** A text that holds a pattern holds every piece of the pattern. *)
Lemma includes_part : forall s x pat y,
    includes s (x ++ pat ++ y) = true -> includes s pat = true.
Proof.
  intros s x pat y H. apply includes_elim in H as (a & b & ->).
  replace (a ++ (x ++ pat ++ y) ++ b) with ((a ++ x) ++ pat ++ (y ++ b))
    by now rewrite <- !app_assoc.
  apply includes_intro.
Qed.

Lemma startsWith_includes : forall s pat,
    startsWith s pat = true -> includes s pat = true.
Proof. intros s pat H. rewrite includes_unfold. now rewrite H. Qed.



(* ================================================================== *)
(** ** Further properties: the generate-slide-content handler          *)
(* ================================================================== *)



Lemma first_theme_range : forall rules styleLower topicLower,
    In (first_theme rules styleLower topicLower)
       (lit "seriph" :: map rule_theme rules).
Proof.
  induction rules as [|r rules IH]; intros styleLower topicLower.
  - now left.
  - cbn [first_theme map].
    destruct (theme_rule_matches styleLower topicLower r).
    + right. now left.
    + destruct (IH styleLower topicLower) as [H | H];
        [now left | right; now right].
Qed.

Lemma first_layout_range : forall rules descLower,
    In (first_layout rules descLower) (lit "default" :: map rule_layout rules).
Proof.
  induction rules as [|r rules IH]; intros descLower.
  - now left.
  - cbn [first_layout map]. destruct (layout_rule_matches descLower r).
    + right. now left.
    + destruct (IH descLower) as [H | H]; [now left | right; now right].
Qed.

(** Whatever the inputs, [recommendTheme] answers one of six themes (never
    "default", "eloc" or "shibainu") and [recommendLayout] one of seven
    layouts (never one of the other twelve of the catalog); each of these
    answers is given on some input. *)
Theorem recommendation_ranges :
  (forall toLowerCase topic style,
      In (recommendTheme toLowerCase topic style)
         [ lit "seriph"; lit "academic"; lit "apple-basic"; lit "bricks";
           lit "light"; lit "penguin" ])
  /\ (forall toLowerCase description,
         In (recommendLayout toLowerCase description)
            [ lit "default"; lit "two-cols"; lit "quote"; lit "image";
              lit "center"; lit "intro"; lit "end" ])
  /\ Forall (fun theme =>
               exists topic style,
                 recommendTheme toLowerCase_ascii topic style = theme)
            [ lit "seriph"; lit "academic"; lit "apple-basic"; lit "bricks";
              lit "light"; lit "penguin" ]
  /\ Forall (fun layout =>
               exists description,
                 recommendLayout toLowerCase_ascii description = layout)
            [ lit "default"; lit "two-cols"; lit "quote"; lit "image";
              lit "center"; lit "intro"; lit "end" ].
Proof.
  split; [|split; [|split]].
  - intros. rewrite recommendTheme_rules. apply first_theme_range.
  - intros. rewrite recommendLayout_rules. apply first_layout_range.
  - repeat apply Forall_cons; try apply Forall_nil.
    + exists (lit "Cooking"), None. reflexivity.
    + exists (lit "Cooking"), (Some (lit "Academic")). reflexivity.
    + exists (lit "Web Development"), None. reflexivity.
    + exists (lit "Cooking"), (Some (lit "fun")). reflexivity.
    + exists (lit "Business plan"), None. reflexivity.
    + exists (lit "Cooking"), (Some (lit "Casual")). reflexivity.
  - repeat apply Forall_cons; try apply Forall_nil.
    + exists (lit "A plain slide"). reflexivity.
    + exists (lit "Cats vs dogs"). reflexivity.
    + exists (lit "A famous saying"). reflexivity.
    + exists (lit "A photo of the team"). reflexivity.
    + exists (lit "Focus on one number"). reflexivity.
    + exists (lit "Introduction"). reflexivity.
    + exists (lit "Thank you"). reflexivity.
Qed.

(** Without a layout argument (absent, or the empty string) the handler
    uses the recommended layout, and the body is the two-column one, the
    quote one or the overview one: the body of the image-left and
    image-right layouts is never chosen. *)
Theorem no_layout_never_image_body :
  forall toLowerCase topic description layout,
    layout = None \/ layout = Some (lit "") ->
    selected_layout toLowerCase layout description
    = recommendLayout toLowerCase description
    /\ slide_body (selected_layout toLowerCase layout description)
                  topic description
       = if str_eqb (recommendLayout toLowerCase description) (lit "two-cols")
         then two_cols_body description
         else if str_eqb (recommendLayout toLowerCase description) (lit "quote")
              then quote_body description
              else overview_body description.
Proof.
  intros toLowerCase topic description layout H.
  assert (Hsel : selected_layout toLowerCase layout description
                 = recommendLayout toLowerCase description)
    by (destruct H as [-> | ->]; reflexivity).
  rewrite Hsel. split; [reflexivity|].
  pose proof (first_layout_range layout_rules (toLowerCase description))
    as Hrange.
  rewrite <- recommendLayout_rules in Hrange.
  unfold layout_rules in Hrange. cbn [In map rule_layout] in Hrange.
  repeat (destruct Hrange as [Hrange | Hrange];
          [rewrite <- Hrange; reflexivity|]).
  contradiction.
Qed.

Lemma no_layout_never_image_body_witness :
  selected_layout toLowerCase_ascii None (lit "A photo of the team")
  = recommendLayout toLowerCase_ascii (lit "A photo of the team")
  /\ slide_body (selected_layout toLowerCase_ascii None
                                 (lit "A photo of the team"))
                (lit "Team") (lit "A photo of the team")
     = overview_body (lit "A photo of the team").
Proof.
  apply (no_layout_never_image_body toLowerCase_ascii (lit "Team")
                                    (lit "A photo of the team") None).
  left. reflexivity.
Defined.

(** In [recommendLayout] the keyword "introduction" never decides: a text
    that holds it holds "intro", which the same rule tests first, so the
    function is the first match over [layout_rules_effective]. *)
Theorem introduction_keyword_never_decides :
  forall toLowerCase description,
    recommendLayout toLowerCase description
    = first_layout layout_rules_effective (toLowerCase description).
Proof.
  intros toLowerCase description. rewrite recommendLayout_rules.
  unfold layout_rules, layout_rules_effective, first_layout,
    layout_rule_matches.
  cbn [existsb layout_keywords rule_layout].
  destruct (includes (toLowerCase description) (lit "introduction")) eqn:E;
    [|reflexivity].
  change (lit "introduction") with ([] ++ lit "intro" ++ lit "duction") in E.
  apply includes_part in E. now rewrite E.
Qed.

(* ================================================================== *)
(** ** Further properties: the lines of the rendered blocks            *)
(* ================================================================== *)

Lemma includes_single : forall c s,
    includes s [c] = existsb (fun x => (x =? c)%N) s.
Proof.
  intros c. induction s as [|x s IH]; [reflexivity|].
  cbn [includes existsb startsWith]. now rewrite IH, andb_true_r.
Qed.

Lemma includes_LF_app : forall a b,
    includes (a ++ b) LF = includes a LF || includes b LF.
Proof.
  intros a b. unfold LF. rewrite !includes_single. apply existsb_app.
Qed.

Lemma split_from_single_app : forall c a b cur,
    split_from [c] (a ++ c :: b) 0 cur
    = split_from [c] a 0 cur ++ split_from [c] b 0 [].
Proof.
  intros c. induction a as [|x a IH]; intros b cur.
  - cbn [app split_from startsWith length Nat.sub].
    now rewrite N.eqb_refl.
  - cbn [app split_from startsWith length Nat.sub].
    destruct (x =? c)%N; cbn [andb]; rewrite IH; reflexivity.
Qed.

Lemma split_single_app : forall c a b,
    split (a ++ [c] ++ b) [c] = split a [c] ++ split b [c].
Proof. intros. apply split_from_single_app. Qed.

Lemma split_join_single : forall c xs,
    xs <> [] ->
    split (join xs [c]) [c] = flat_map (fun x => split x [c]) xs.
Proof.
  intros c. induction xs as [|x xs IH]; intros H; [congruence|].
  destruct xs as [|y xs].
  - cbn [join flat_map]. now rewrite app_nil_r.
  - rewrite join_cons by discriminate. rewrite split_single_app.
    rewrite IH by discriminate. reflexivity.
Qed.

Lemma split_template : forall xs,
    xs <> [] -> split (template xs) LF = flat_map (fun l => split l LF) xs.
Proof. intros xs H. now apply split_join_single. Qed.

Lemma split_line : forall l, includes l LF = false -> split l LF = [l].
Proof. intros l H. now apply split_no_occurrence. Qed.

Lemma split_join_lines : forall xs,
    (forall x, In x xs -> includes x LF = false) ->
    split (join xs LF) LF = match xs with [] => [lit ""] | _ :: _ => xs end.
Proof.
  intros xs H. destruct xs as [|x0 xs0] eqn:E; [reflexivity|]. rewrite <- E in *.
  unfold LF. rewrite split_join_single by (subst; discriminate).
  clear E. induction xs as [|x xs IH]; [reflexivity|].
  cbn [flat_map]. fold LF. rewrite split_line by (apply H; now left).
  cbn [app]. f_equal. apply IH. intros y Hy. apply H. now right.
Qed.

Lemma split_bullets : forall items,
    (forall item, In item items -> includes item LF = false) ->
    split (join (map (fun item => lit "- " ++ item) items) LF) LF
    = bullet_lines items.
Proof.
  intros items H. rewrite split_join_lines.
  - destruct items; reflexivity.
  - intros x Hx. apply in_map_iff in Hx as (item & <- & Hitem).
    rewrite includes_LF_app, (H item Hitem). reflexivity.
Qed.

(** Proves that a line built from literals and line-free arguments holds
    no line feed. *)
Ltac lf_free :=
  rewrite ?includes_LF_app;
  repeat match goal with
         | H : includes ?x LF = false |- context [includes ?x LF] => rewrite H
         end;
  reflexivity.

(** Cuts a rendered template into its lines. *)
Ltac template_lines :=
  rewrite split_template by discriminate; cbn [flat_map];
  repeat match goal with
         | |- context [split ?l LF] => rewrite (split_line l) by lf_free
         end.

(** The lines of a formatted code block are the opening fence with the
    language, the lines of the code as they are, and the closing fence. *)
Theorem formatCodeBlock_lines : forall code language,
    includes language LF = false ->
    split (formatCodeBlock code language) LF
    = (lit "```" ++ language) :: split code LF ++ [lit "```"].
Proof.
  intros code language H. unfold formatCodeBlock. template_lines.
  now rewrite app_nil_r.
Qed.

Lemma formatCodeBlock_lines_witness :
  split (formatCodeBlock (template [lit "let x = 1"; lit "x + 1"]) (lit "js")) LF
  = [lit "```js"; lit "let x = 1"; lit "x + 1"; lit "```"].
Proof.
  apply (formatCodeBlock_lines (template [lit "let x = 1"; lit "x + 1"])
                               (lit "js")).
  reflexivity.
Defined.

(** The table of contents has one bullet line per topic, in order, between
    its fixed head and foot (a single empty line when there is no
    topic). *)
Theorem createTableOfContents_lines : forall topics,
    (forall topic, In topic topics -> includes topic LF = false) ->
    split (createTableOfContents topics) LF
    = [ lit "---"; lit "layout: center"; lit "---"; lit "";
        lit "# Table of Contents"; lit "" ]
        ++ bullet_lines topics
        ++ [ lit ""; lit "---"; lit "" ].
Proof.
  intros topics H. unfold createTableOfContents. template_lines.
  rewrite split_bullets by exact H. now rewrite app_nil_r.
Qed.

Lemma createTableOfContents_lines_witness :
  split (createTableOfContents [lit "Intro"; lit "Q&A"]) LF
  = [ lit "---"; lit "layout: center"; lit "---"; lit "";
      lit "# Table of Contents"; lit "" ]
      ++ bullet_lines [lit "Intro"; lit "Q&A"]
      ++ [ lit ""; lit "---"; lit "" ].
Proof.
  apply (createTableOfContents_lines [lit "Intro"; lit "Q&A"]).
  intros topic Htopic. cbn [In] in Htopic.
  destruct Htopic as [<- | [<- | []]]; reflexivity.
Defined.

(** The comparison slide lists the left items, then the right items, one
    bullet line each and in order, under their column markers and
    headings. *)
Theorem createComparisonSlide_lines :
  forall title leftTitle leftContent rightTitle rightContent,
    includes title LF = false ->
    includes leftTitle LF = false ->
    includes rightTitle LF = false ->
    (forall item, In item leftContent -> includes item LF = false) ->
    (forall item, In item rightContent -> includes item LF = false) ->
    split (createComparisonSlide title leftTitle leftContent
                                 rightTitle rightContent) LF
    = [ lit "---"; lit "layout: two-cols"; lit "---"; lit "";
        lit "# " ++ title; lit "";
        lit "::left::"; lit "";
        lit "## " ++ leftTitle; lit "" ]
        ++ bullet_lines leftContent
        ++ [ lit ""; lit "::right::"; lit "";
             lit "## " ++ rightTitle; lit "" ]
        ++ bullet_lines rightContent
        ++ [ lit ""; lit "---"; lit "" ].
Proof.
  intros title leftTitle leftContent rightTitle rightContent
         Ht Hl Hr Hleft Hright.
  unfold createComparisonSlide. template_lines.
  rewrite !split_bullets by assumption.
  reflexivity.
Qed.

Lemma createComparisonSlide_lines_witness :
  split (createComparisonSlide (lit "A vs B") (lit "A") [lit "x"]
                               (lit "B") [lit "y"]) LF
  = [ lit "---"; lit "layout: two-cols"; lit "---"; lit "";
      lit "# A vs B"; lit "";
      lit "::left::"; lit "";
      lit "## A"; lit "" ]
      ++ bullet_lines [lit "x"]
      ++ [ lit ""; lit "::right::"; lit "";
           lit "## B"; lit "" ]
      ++ bullet_lines [lit "y"]
      ++ [ lit ""; lit "---"; lit "" ].
Proof.
  apply (createComparisonSlide_lines (lit "A vs B") (lit "A") [lit "x"]
                                     (lit "B") [lit "y"]);
    try reflexivity;
    intros item Hitem; cbn [In] in Hitem;
    destruct Hitem as [<- | []]; reflexivity.
Defined.

(** A slide from [generateSlideContent] has a layout line exactly when the
    layout is not "default"; then come the heading with the topic and the
    lines of the content as they are. *)
Theorem generateSlideContent_lines : forall topic layout content,
    includes topic LF = false ->
    includes layout LF = false ->
    split (generateSlideContent topic layout content) LF
    = [ lit "---" ]
        ++ (if str_eqb layout (lit "default") then []
            else [ lit "layout: " ++ layout ])
        ++ [ lit "---"; lit ""; lit "# " ++ topic; lit "" ]
        ++ split content LF
        ++ [ lit ""; lit "---"; lit "" ].
Proof.
  intros topic layout content Ht Hl. unfold generateSlideContent.
  destruct (str_eqb layout (lit "default")).
  - template_lines. cbn [app]. rewrite ?app_nil_r. reflexivity.
  - replace ((lit "layout: " ++ layout ++ LF) ++ lit "---")
      with ((lit "layout: " ++ layout) ++ LF ++ lit "---")
      by now rewrite <- !app_assoc.
    rewrite split_template by discriminate. cbn [flat_map].
    rewrite (split_single_app 10%N : forall a b,
                split (a ++ LF ++ b) LF = split a LF ++ split b LF).
    repeat match goal with
           | |- context [split ?l LF] => rewrite (split_line l) by lf_free
           end.
    cbn [app]. rewrite ?app_nil_r. reflexivity.
Qed.

Lemma generateSlideContent_lines_witness :
  split (generateSlideContent (lit "T") (lit "quote") (lit "body")) LF
  = [ lit "---" ]
      ++ (if str_eqb (lit "quote") (lit "default") then []
          else [ lit "layout: " ++ lit "quote" ])
      ++ [ lit "---"; lit ""; lit "# " ++ lit "T"; lit "" ]
      ++ split (lit "body") LF
      ++ [ lit ""; lit "---"; lit "" ].
Proof.
  apply (generateSlideContent_lines (lit "T") (lit "quote") (lit "body"));
    reflexivity.
Defined.

(* ================================================================== *)
(** ** Further properties: what a rendered deck holds                  *)
(* ================================================================== *)

Lemma includes_prefix : forall pat b, includes (pat ++ b) pat = true.
Proof. intros pat b. apply (includes_intro pat [] b). Qed.

Lemma includes_refl : forall pat, includes pat pat = true.
Proof.
  intros pat. rewrite <- (app_nil_r pat) at 1. apply includes_prefix.
Qed.

Lemma In_join_includes : forall xs x sep pat,
    In x xs -> includes x pat = true -> includes (join xs sep) pat = true.
Proof.
  induction xs as [|x0 xs IH]; intros x sep pat Hin Hx; [contradiction|].
  destruct xs as [|x1 xs].
  - destruct Hin as [-> | []]. exact Hx.
  - rewrite join_cons by discriminate. destruct Hin as [-> | Hin].
    + now apply includes_app_l.
    + do 2 apply includes_app_r. now apply IH with (x := x).
Qed.

(** Finds a line of a template in the text of the template. *)
Ltac includes_search :=
  first [ apply includes_prefix
        | apply includes_refl
        | solve [apply includes_app_l; includes_search]
        | apply includes_app_r; includes_search ].

Ltac includes_line := unfold template; cbn [join]; includes_search.

Section DeckFacts.

Variable toLowerCase : jsstring -> jsstring.

Lemma render_item_push : forall title author item index slides,
    render_item toLowerCase title author item index slides
    = slides ++ render_item toLowerCase title author item 0 [].
Proof.
  intros title author item index slides. unfold render_item.
  destruct (if includes (toLowerCase item) (lit "introduction") then _ else _).
  reflexivity.
Qed.

Lemma forEach_render_item : forall title author items index slides,
    forEach items index (render_item toLowerCase title author) slides
    = slides
        ++ flat_map (fun item => render_item toLowerCase title author item 0 [])
                    items.
Proof.
  induction items as [|item items IH]; intros index slides.
  - cbn. now rewrite app_nil_r.
  - cbn [forEach flat_map]. rewrite IH, render_item_push.
    now rewrite <- app_assoc.
Qed.

(** A deck holds its theme line, its title heading and its author line;
    every outline item after the first has its bullet in the table of
    contents, and every such item that is not an introduction, a
    conclusion or a Q&A has its own second-level heading. *)
Theorem deck_contains : forall title author outline theme,
    let deck :=
      createPresentationFromOutline toLowerCase title author outline theme in
    includes deck (lit "theme: " ++ theme) = true
    /\ includes deck (lit "# " ++ title) = true
    /\ includes deck (lit "A presentation by " ++ author) = true
    /\ (forall item,
           In item (skipn 1 outline) ->
           includes deck (lit "- " ++ item) = true)
    /\ (forall item,
           In item (skipn 1 outline) ->
           includes (toLowerCase item) (lit "introduction") = false ->
           includes (toLowerCase item) (lit "conclusion") = false ->
           includes (toLowerCase item) (lit "q&a") = false ->
           includes deck (lit "## " ++ item) = true).
Proof.
  intros title author outline theme deck. subst deck.
  unfold createPresentationFromOutline. rewrite forEach_render_item.
  repeat apply conj.
  - eapply In_join_includes; [left; reflexivity | includes_line].
  - eapply In_join_includes; [left; reflexivity | includes_line].
  - eapply In_join_includes; [left; reflexivity | includes_line].
  - intros item Hitem.
    eapply In_join_includes; [right; left; reflexivity|].
    unfold createTableOfContents.
    assert (Htoc : includes
                     (join (map (fun topic => lit "- " ++ topic)
                                (skipn 1 outline)) LF)
                     (lit "- " ++ item) = true).
    { eapply In_join_includes; [|apply includes_refl].
      apply in_map_iff. now exists item. }
    unfold template. cbn [join].
    do 12 apply includes_app_r. now apply includes_app_l.
  - intros item Hitem Hi Hc Hq.
    eapply In_join_includes.
    + right. right. apply in_flat_map. exists item. split; [exact Hitem|].
      unfold render_item. rewrite Hi, Hc, Hq. left. reflexivity.
    + includes_line.
Qed.

End DeckFacts.

Lemma deck_contains_witness :
  includes sample_deck (lit "- " ++ lit "Main Content 1") = true
  /\ includes sample_deck (lit "## " ++ lit "Main Content 1") = true.
Proof.
  destruct (deck_contains toLowerCase_ascii (lit "T") (lit "A")
                          [lit "Title: T"; lit "Main Content 1"]
                          (lit "seriph"))
    as (_ & _ & _ & Hbullet & Hheading).
  split.
  - apply Hbullet. left. reflexivity.
  - apply Hheading; [left; reflexivity | reflexivity ..].
Defined.

(* ================================================================== *)
(** ** Further properties: the trailer items of an outline             *)
(* ================================================================== *)

Lemma slideCount_thresholds : forall duration,
    (11 <= slideCount duration <-> 22 <= duration)
    /\ (13 <= slideCount duration <-> 26 <= duration).
Proof.
  intros duration. unfold slideCount.
  pose proof (Z.div_mod duration 2 ltac:(lia)) as E.
  pose proof (Z.mod_pos_bound duration 2 ltac:(lia)) as B.
  generalize dependent (duration / 2). intros q E. lia.
Qed.

(** Decides whether a literal item is in a computed outline. *)
Ltac outline_member :=
  split;
  [ intros Hin; vm_compute in Hin;
    repeat (destruct Hin as [Hin | Hin]; [try discriminate Hin|]);
    try contradiction; lia
  | intros Hge; try lia; cbn [In];
    repeat first [ left; reflexivity | right ] ].

(** Truncation drops the trailer items of short talks: "Conclusion" is in
    the outline exactly from 22 minutes on and "Q&A" exactly from 26
    minutes on; from 26 minutes on the outline ends with "Key Takeaways",
    "Conclusion", "Q&A". *)
Theorem outline_trailers : forall topic duration,
    (In (lit "Conclusion") (generatePresentationOutline topic duration)
     <-> 22 <= duration)
    /\ (In (lit "Q&A") (generatePresentationOutline topic duration)
        <-> 26 <= duration)
    /\ (26 <= duration ->
        exists front,
          generatePresentationOutline topic duration
          = front ++ [lit "Key Takeaways"; lit "Conclusion"; lit "Q&A"]).
Proof.
  intros topic duration.
  destruct (slideCount_thresholds duration) as [H22 H26].
  rewrite <- H22, <- H26. clear H22 H26.
  unfold generatePresentationOutline.
  pose proof (slideCount_range duration) as H.
  revert H. generalize (slideCount duration). intros slides H.
  assert (Hcases : slides = 5 \/ slides = 6 \/ slides = 7 \/ slides = 8
                   \/ slides = 9 \/ slides = 10 \/ slides = 11 \/ slides = 12
                   \/ slides = 13 \/ slides = 14 \/ slides = 15 \/ slides = 16
                   \/ slides = 17 \/ slides = 18 \/ slides = 19 \/ slides = 20)
    by lia.
  clear H.
  repeat (destruct Hcases as [-> | Hcases]; [|]); try subst slides;
    match goal with
    | |- context [firstn ?n ?l] =>
        let v := eval vm_compute in (firstn n l) in
        change (firstn n l) with v
    end;
    (split; [outline_member | split; [outline_member|]]);
    intros Hge; try lia;
    match goal with
    | |- exists front, ?l = _ =>
        exists (firstn (length l - 3) l); vm_compute; reflexivity
    end.
Qed.

Lemma outline_trailers_witness :
  exists front,
    generatePresentationOutline (lit "AI in Healthcare") 30
    = front ++ [lit "Key Takeaways"; lit "Conclusion"; lit "Q&A"].
Proof.
  destruct (outline_trailers (lit "AI in Healthcare") 30) as (_ & _ & H).
  apply H. lia.
Defined.

(* ================================================================== *)
(** ** Further properties: the mock web search                         *)
(* ================================================================== *)

Lemma hex_digit_safe : forall n,
    (n < 16)%N -> WebTools.is_uri_unreserved (WebTools.hex_digit n) = true.
Proof.
  intros [|p] H; [reflexivity|].
  do 4 (destruct p as [p|p|]; try reflexivity); lia.
Qed.

Lemma percent_octet_safe : forall b,
    (b < 256)%N -> forallb uri_safe (WebTools.percent_octet b) = true.
Proof.
  intros b H. unfold WebTools.percent_octet, uri_safe. cbn [forallb].
  rewrite !hex_digit_safe.
  - reflexivity.
  - apply N.mod_lt. discriminate.
  - apply N.Div0.div_lt_upper_bound. lia.
Qed.

Lemma utf8_octets_bound : forall cp,
    (cp < 1114112)%N -> Forall (fun b => (b < 256)%N) (WebTools.utf8_octets cp).
Proof.
  intros cp H. unfold WebTools.utf8_octets.
  assert (M : forall x, (x mod 64 < 64)%N)
    by (intros x; apply N.mod_lt; discriminate).
  destruct (cp <? 128)%N eqn:E1.
  { apply N.ltb_lt in E1. repeat constructor. lia. }
  destruct (cp <? 2048)%N eqn:E2.
  { apply N.ltb_lt in E2.
    assert (cp / 64 < 32)%N by (apply N.Div0.div_lt_upper_bound; lia).
    pose proof (M cp). repeat constructor; lia. }
  destruct (cp <? 65536)%N eqn:E3.
  { apply N.ltb_lt in E3.
    assert (cp / 4096 < 16)%N by (apply N.Div0.div_lt_upper_bound; lia).
    pose proof (M cp). pose proof (M (cp / 64)%N). repeat constructor; lia. }
  assert (cp / 262144 < 16)%N by (apply N.Div0.div_lt_upper_bound; lia).
  pose proof (M cp). pose proof (M (cp / 64)%N). pose proof (M (cp / 4096)%N).
  repeat constructor; lia.
Qed.

Lemma percent_encoding_safe : forall cp,
    (cp < 1114112)%N ->
    forallb uri_safe (flat_map WebTools.percent_octet (WebTools.utf8_octets cp))
    = true.
Proof.
  intros cp H. pose proof (utf8_octets_bound cp H) as Hb.
  induction Hb as [|b bs Hlt _ IH]; [reflexivity|].
  cbn [flat_map]. rewrite forallb_app, IH, percent_octet_safe by exact Hlt.
  reflexivity.
Qed.

Lemma encodeURIComponent_safe : forall n s out,
    (length s <= n)%nat ->
    Forall (fun c => (c < 65536)%N) s ->
    WebTools.encodeURIComponent s = Some out ->
    forallb uri_safe out = true.
Proof.
  induction n as [|n IH]; intros s out Hlen Hs Henc.
  - destruct s; [|simpl in Hlen; lia]. injection Henc as <-. reflexivity.
  - destruct s as [|c rest]; [injection Henc as <-; reflexivity|].
    inversion Hs as [|? ? Hc Hrest]; subst.
    cbn [WebTools.encodeURIComponent] in Henc.
    destruct (WebTools.is_uri_unreserved c) eqn:Eu.
    { destruct (WebTools.encodeURIComponent rest) as [out'|] eqn:Er;
        [|discriminate]. injection Henc as <-.
      cbn [forallb]. unfold uri_safe at 1. rewrite Eu. cbn [orb andb].
      apply (IH rest); [simpl in Hlen; lia | exact Hrest | exact Er]. }
    destruct (WebTools.is_low_surrogate c); [discriminate|].
    destruct (WebTools.is_high_surrogate c) eqn:Eh.
    { destruct rest as [|lo rest']; [discriminate|].
      destruct (WebTools.is_low_surrogate lo) eqn:El; [|discriminate].
      destruct (WebTools.encodeURIComponent rest') as [out'|] eqn:Er;
        [|discriminate]. injection Henc as <-.
      inversion Hrest as [|? ? Hlo Hrest']; subst.
      rewrite forallb_app. rewrite percent_encoding_safe.
      - apply (IH rest'); [simpl in Hlen; lia | exact Hrest' | exact Er].
      - unfold WebTools.is_high_surrogate, WebTools.is_low_surrogate in *.
        apply andb_prop in Eh as [_ Eh]. apply andb_prop in El as [_ El].
        apply N.leb_le in Eh, El. lia. }
    destruct (WebTools.encodeURIComponent rest) as [out'|] eqn:Er;
      [|discriminate]. injection Henc as <-.
    rewrite forallb_app. rewrite percent_encoding_safe by lia.
    apply (IH rest); [simpl in Hlen; lia | exact Hrest | exact Er].
Qed.

Lemma encodeURIComponent_unreserved : forall s,
    forallb WebTools.is_uri_unreserved s = true ->
    WebTools.encodeURIComponent s = Some s.
Proof.
  induction s as [|c s IH]; intros H; [reflexivity|].
  cbn [forallb] in H. apply andb_prop in H as [Hc Hs].
  cbn [WebTools.encodeURIComponent]. now rewrite Hc, IH.
Qed.

Lemma high_surrogate_reserved : forall c,
    WebTools.is_high_surrogate c = true ->
    WebTools.is_uri_unreserved c = false
    /\ WebTools.is_low_surrogate c = false.
Proof.
  intros c H. unfold WebTools.is_high_surrogate in H.
  apply andb_prop in H as [H1 H2]. apply N.leb_le in H1, H2.
  assert (Hle : forall k, (k < 55296)%N -> (c <=? k)%N = false)
    by (intros k Hk; apply N.leb_gt; lia).
  assert (Heq : forall k, (k < 55296)%N -> (c =? k)%N = false)
    by (intros k Hk; apply N.eqb_neq; lia).
  unfold WebTools.is_uri_unreserved, WebTools.is_low_surrogate.
  cbn [existsb].
  rewrite !Hle, !Heq by reflexivity.
  replace (56320 <=? c)%N with false by (symmetry; apply N.leb_gt; lia).
  rewrite !andb_false_r. split; reflexivity.
Qed.

Lemma encodeURIComponent_dangling : forall n prefix hi,
    (length prefix <= n)%nat ->
    WebTools.is_high_surrogate hi = true ->
    WebTools.encodeURIComponent (prefix ++ [hi]) = None.
Proof.
  induction n as [|n IH]; intros prefix hi Hlen Hhi;
    destruct (high_surrogate_reserved hi Hhi) as [Hu Hl].
  - destruct prefix; [|simpl in Hlen; lia].
    cbn [app WebTools.encodeURIComponent]. now rewrite Hu, Hl, Hhi.
  - destruct prefix as [|c rest].
    + cbn [app WebTools.encodeURIComponent]. now rewrite Hu, Hl, Hhi.
    + cbn [app WebTools.encodeURIComponent].
      destruct (WebTools.is_uri_unreserved c).
      { rewrite IH by (simpl in Hlen; lia || exact Hhi). reflexivity. }
      destruct (WebTools.is_low_surrogate c); [reflexivity|].
      destruct (WebTools.is_high_surrogate c).
      { destruct rest as [|lo rest'].
        - cbn [app]. now rewrite Hl.
        - cbn [app]. destruct (WebTools.is_low_surrogate lo); [|reflexivity].
          rewrite IH by (simpl in Hlen; lia || exact Hhi). reflexivity. }
      rewrite IH by (simpl in Hlen; lia || exact Hhi). reflexivity.
Qed.

Lemma slice_to_single : forall (A : Type) (x : A) limit,
    slice_to [x] limit = if 1 <=? limit then [x] else [].
Proof.
  intros A x limit. unfold slice_to. cbn [length Z.of_nat].
  destruct (1 <=? limit) eqn:E; [apply Z.leb_le in E | apply Z.leb_gt in E].
  - replace (limit <? 0) with false by (symmetry; apply Z.ltb_ge; lia).
    now rewrite Z.min_r by lia.
  - destruct (limit <? 0) eqn:E0;
      [apply Z.ltb_lt in E0 | apply Z.ltb_ge in E0].
    + now rewrite Z.max_r by lia.
    + now replace limit with 0 by lia.
Qed.

(** Whatever the query, made of code units, every URL that [searchWeb]
    answers is the fixed address followed by unreserved characters and
    percent signs only; a query of unreserved characters is in the URL as
    it is. *)
Theorem searchWeb_url_is_safe : forall query limit results,
    Forall (fun c => (c < 65536)%N) query ->
    WebTools.searchWeb query limit = Some results ->
    Forall (fun r =>
              exists encoded,
                WebTools.url r = lit "https://example.com/search?q=" ++ encoded
                /\ forallb uri_safe encoded = true
                /\ (forallb WebTools.is_uri_unreserved query = true ->
                    encoded = query))
           results.
Proof.
  intros query limit results Hq Hs. unfold WebTools.searchWeb in Hs.
  destruct (WebTools.encodeURIComponent query) as [encoded|] eqn:E;
    [|discriminate].
  rewrite slice_to_single in Hs. injection Hs as <-.
  destruct (1 <=? limit); constructor; [|constructor].
  exists encoded. cbn [WebTools.url]. split; [reflexivity|]. split.
  - exact (encodeURIComponent_safe (length query) query encoded
                                   (Nat.le_refl _) Hq E).
  - intros Hu. rewrite encodeURIComponent_unreserved in E by exact Hu.
    now injection E.
Qed.

Lemma searchWeb_url_is_safe_witness :
  Forall (fun r =>
            exists encoded,
              WebTools.url r = lit "https://example.com/search?q=" ++ encoded
              /\ forallb uri_safe encoded = true
              /\ (forallb WebTools.is_uri_unreserved (lit "R&D plan") = true ->
                  encoded = lit "R&D plan"))
         [ WebTools.mkSearchResult
             (lit "Search result for " ++ DQUOTE ++ lit "R&D plan" ++ DQUOTE)
             (lit "https://example.com/search?q=R%26D%20plan")
             (lit "This is a mock search result for the query "
                ++ DQUOTE ++ lit "R&D plan" ++ DQUOTE
                ++ lit ". In a real implementation, this would return actual search results from a search engine API.") ].
Proof.
  apply (searchWeb_url_is_safe (lit "R&D plan") 5).
  - repeat constructor.
  - reflexivity.
Defined.

(** [searchWeb] answers at most one result: exactly one when the limit is
    at least 1, none when it is 0 or negative.  A query without surrogate
    code units is always answered; a query that ends with a high surrogate
    is rejected, whatever the limit. *)
Theorem searchWeb_limit : forall query limit,
    (forall results,
        WebTools.searchWeb query limit = Some results ->
        (length results <= 1)%nat
        /\ (1 <= limit -> length results = 1%nat)
        /\ (limit <= 0 -> results = []))
    /\ (forallb (fun c => negb (WebTools.is_high_surrogate c)
                          && negb (WebTools.is_low_surrogate c)) query = true ->
        exists results, WebTools.searchWeb query limit = Some results)
    /\ (forall prefix hi,
           query = prefix ++ [hi] ->
           WebTools.is_high_surrogate hi = true ->
           WebTools.searchWeb query limit = None).
Proof.
  intros query limit. split; [|split].
  - intros results Hs. unfold WebTools.searchWeb in Hs.
    destruct (WebTools.encodeURIComponent query); [|discriminate].
    rewrite slice_to_single in Hs. injection Hs as <-.
    destruct (1 <=? limit) eqn:E;
      [apply Z.leb_le in E | apply Z.leb_gt in E]; cbn [length];
      repeat split; intros; (reflexivity || lia).
  - intros H. unfold WebTools.searchWeb.
    assert (Henc : exists out, WebTools.encodeURIComponent query = Some out).
    { induction query as [|c rest IH]; [now exists []|].
      cbn [forallb] in H. apply andb_prop in H as [Hc Hrest].
      apply andb_prop in Hc as [Hh Hl].
      destruct (IH Hrest) as [out Hout].
      cbn [WebTools.encodeURIComponent]. rewrite Hout.
      apply negb_true_iff in Hh, Hl. rewrite Hh, Hl.
      destruct (WebTools.is_uri_unreserved c); eexists; reflexivity. }
    destruct Henc as [out ->]. eexists. reflexivity.
  - intros prefix hi -> Hhi. unfold WebTools.searchWeb.
    now rewrite (encodeURIComponent_dangling (length prefix) prefix hi
                                             (Nat.le_refl _) Hhi).
Qed.

Lemma searchWeb_limit_witness :
  (exists results, WebTools.searchWeb (lit "slidev") 0 = Some results)
  /\ WebTools.searchWeb (lit "slidev" ++ [55357%N]) 0 = None.
Proof.
  destruct (searchWeb_limit (lit "slidev") 0) as (_ & Hok & _).
  destruct (searchWeb_limit (lit "slidev" ++ [55357%N]) 0) as (_ & _ & Hbad).
  split.
  - apply Hok. reflexivity.
  - apply (Hbad (lit "slidev") 55357%N); reflexivity.
Defined.

(* ================================================================== *)
(** ** Further properties: the package name of a new project           *)
(* ================================================================== *)

Lemma replace_space_runs_clean : forall r s in_run,
    forallb not_whitespace r = true ->
    forallb not_whitespace (replace_space_runs s in_run r) = true.
Proof.
  intros r. induction s as [|c s IH]; intros in_run Hr; [reflexivity|].
  cbn [replace_space_runs]. destruct (is_whitespace c) eqn:E.
  - destruct in_run; [now apply IH|]. rewrite forallb_app, Hr. now apply IH.
  - cbn [forallb]. unfold not_whitespace at 1. rewrite E. now apply IH.
Qed.

Lemma replace_space_runs_id : forall r s in_run,
    forallb not_whitespace s = true -> replace_space_runs s in_run r = s.
Proof.
  intros r. induction s as [|c s IH]; intros in_run H; [reflexivity|].
  cbn [forallb] in H. apply andb_prop in H as [Hc Hs].
  unfold not_whitespace in Hc. apply negb_true_iff in Hc.
  cbn [replace_space_runs]. rewrite Hc. f_equal. now apply IH.
Qed.

Lemma replace_space_runs_length : forall r s in_run,
    (length r <= 1)%nat ->
    (length (replace_space_runs s in_run r) <= length s)%nat.
Proof.
  intros r. induction s as [|c s IH]; intros in_run Hr; [reflexivity|].
  cbn [replace_space_runs]. destruct (is_whitespace c).
  - destruct in_run.
    + specialize (IH true Hr). simpl. lia.
    + rewrite length_app. specialize (IH true Hr). simpl. lia.
  - specialize (IH false Hr). simpl. lia.
Qed.

(** The package name of a new project never holds white space, is no
    longer than the lower-cased title, and is the lower-cased title itself
    when that has no white space. *)
Theorem package_name_has_no_whitespace : forall toLowerCase title,
    forallb not_whitespace (package_name toLowerCase title) = true
    /\ (length (package_name toLowerCase title)
        <= length (toLowerCase title))%nat
    /\ (forallb not_whitespace (toLowerCase title) = true ->
        package_name toLowerCase title = toLowerCase title).
Proof.
  intros toLowerCase title. unfold package_name. repeat apply conj.
  - now apply replace_space_runs_clean.
  - apply replace_space_runs_length. simpl. lia.
  - apply replace_space_runs_id.
Qed.

Lemma package_name_has_no_whitespace_witness :
  package_name toLowerCase_ascii (lit "Slidev") = toLowerCase_ascii (lit "Slidev").
Proof.
  destruct (package_name_has_no_whitespace toLowerCase_ascii (lit "Slidev"))
    as (_ & _ & H).
  apply H. reflexivity.
Defined.

(* ================================================================== *)
(** ** Further properties: what the validator accepts                  *)
(* ================================================================== *)

Lemma empty_slide_errors_nil : forall slides index,
    empty_slide_errors slides index = []
    <-> Forall (fun slide => slide_is_empty slide = false) slides.
Proof.
  induction slides as [|slide rest IH]; intros index.
  - split; [constructor | reflexivity].
  - cbn [empty_slide_errors]. split.
    + intros H. apply app_eq_nil in H as [H1 H2].
      constructor; [destruct (slide_is_empty slide); [discriminate | reflexivity]
                   | now apply (IH (S index))].
    + intros H. inversion H as [|? ? Hs Hr]; subst. rewrite Hs.
      now apply (IH (S index)).
Qed.

(** A text without three dashes in a row fails on both structure rules:
    its errors are the missing separators, the missing front matter and,
    when it has no content line, the empty slide 1. *)
Theorem validate_without_separator : forall content,
    includes content (lit "---") = false ->
    errors (validateSlideContent content)
    = [ lit "Missing slide separators (---)";
        lit "Missing frontmatter at the beginning" ]
        ++ (if slide_is_empty content then [empty_msg 1] else [])
    /\ isValid (validateSlideContent content) = false.
Proof.
  intros content H.
  assert (Hs : startsWith content (lit "---") = false).
  { destruct (startsWith content (lit "---")) eqn:E; [|reflexivity].
    apply startsWith_includes in E. congruence. }
  assert (Hsep : includes content SEP = false).
  { destruct (includes content SEP) eqn:E; [|reflexivity].
    apply (includes_part content LF (lit "---") LF) in E. congruence. }
  assert (He : errors (validateSlideContent content)
               = [ lit "Missing slide separators (---)";
                   lit "Missing frontmatter at the beginning" ]
                   ++ (if slide_is_empty content then [empty_msg 1] else [])).
  { rewrite validate_errors, H, Hs, split_no_occurrence by exact Hsep.
    cbn [empty_slide_errors app]. now rewrite app_nil_r. }
  split; [exact He|]. rewrite validate_isValid, He. reflexivity.
Qed.

Lemma validate_without_separator_witness :
  errors (validateSlideContent (lit "No separators or frontmatter"))
  = [ lit "Missing slide separators (---)";
      lit "Missing frontmatter at the beginning" ]
      ++ (if slide_is_empty (lit "No separators or frontmatter")
          then [empty_msg 1] else [])
  /\ isValid (validateSlideContent (lit "No separators or frontmatter"))
     = false.
Proof.
  apply (validate_without_separator (lit "No separators or frontmatter")).
  reflexivity.
Defined.

(** The validator accepts a text exactly when the text starts with three
    dashes and every segment between separators keeps a content line; the
    separator rule adds nothing to the front-matter rule. *)
Theorem validate_accepts_iff : forall content,
    isValid (validateSlideContent content) = true
    <-> startsWith content (lit "---") = true
        /\ Forall (fun segment => slide_is_empty segment = false)
                  (split content SEP).
Proof.
  intros content. rewrite validate_isValid, validate_errors.
  rewrite <- (empty_slide_errors_nil (split content SEP) 0).
  destruct (startsWith content (lit "---")) eqn:Es.
  - rewrite (startsWith_includes _ _ Es). cbn [app].
    destruct (empty_slide_errors (split content SEP) 0); cbn [length Nat.eqb];
      split; try discriminate; try tauto.
    intros [_ H]. discriminate H.
  - destruct (includes content (lit "---")); cbn [app length Nat.eqb];
      split; try discriminate; intros [H _]; discriminate H.
Qed.

Lemma validate_accepts_iff_witness :
  isValid (validateSlideContent (template [lit "---"; lit "# Title"])) = true.
Proof.
  apply (proj2 (validate_accepts_iff (template [lit "---"; lit "# Title"]))).
  split; [reflexivity|].
  repeat constructor.
Defined.

(* ================================================================== *)
(** ** Further properties: image slides and the generation pipeline    *)
(* ================================================================== *)

(** The lines of an image slide, for every layout and caption: the
    caption, when there is one, is a starred line of its own, one empty
    line below the heading with layout [image] and three below with the
    side layouts; without a caption (absent or empty) the side layouts
    still leave two more empty lines than [image]. *)
Theorem createImageSlide_lines : forall title imagePath caption layout,
    includes title LF = false ->
    includes imagePath LF = false ->
    (forall c, caption = Some c -> includes c LF = false) ->
    split (createImageSlide title imagePath caption layout) LF
    = [ lit "---"; lit "layout: " ++ layout_name layout;
        lit "image: " ++ imagePath; lit "---"; lit "";
        lit "# " ++ title ]
        ++ caption_lines layout (given_caption caption)
        ++ [ lit ""; lit "---"; lit "" ].
Proof.
  intros title imagePath caption layout Ht Hp Hc.
  assert (Hsplit : forall a b,
             split (a ++ LF ++ b) LF = split a LF ++ split b LF)
    by exact (split_single_app 10%N).
  unfold createImageSlide, given_caption.
  destruct caption as [[|c0 c]|]; cbn [truthy].
  1, 3: destruct layout; cbn [caption_lines layout_name];
        template_lines; rewrite ?app_nil_r; reflexivity.
  specialize (Hc (c0 :: c) eq_refl).
  destruct layout; cbn [caption_lines layout_name].
  - replace (lit "# " ++ title ++ LF ++ LF ++ lit "*" ++ (c0 :: c) ++ lit "*")
      with ((lit "# " ++ title) ++ LF ++ lit "" ++ LF
                                ++ (lit "*" ++ (c0 :: c) ++ lit "*"))
      by now rewrite <- !app_assoc.
    rewrite split_template by discriminate. cbn [flat_map].
    rewrite !Hsplit.
    repeat match goal with
           | |- context [split ?l LF] => rewrite (split_line l) by lf_free
           end.
    reflexivity.
  - replace (LF ++ LF ++ lit "*" ++ (c0 :: c) ++ lit "*")
      with (lit "" ++ LF ++ lit "" ++ LF ++ (lit "*" ++ (c0 :: c) ++ lit "*"))
      by reflexivity.
    rewrite split_template by discriminate. cbn [flat_map].
    rewrite !Hsplit.
    repeat match goal with
           | |- context [split ?l LF] => rewrite (split_line l) by lf_free
           end.
    reflexivity.
  - replace (LF ++ LF ++ lit "*" ++ (c0 :: c) ++ lit "*")
      with (lit "" ++ LF ++ lit "" ++ LF ++ (lit "*" ++ (c0 :: c) ++ lit "*"))
      by reflexivity.
    rewrite split_template by discriminate. cbn [flat_map].
    rewrite !Hsplit.
    repeat match goal with
           | |- context [split ?l LF] => rewrite (split_line l) by lf_free
           end.
    reflexivity.
Qed.

Lemma createImageSlide_lines_witness :
  split (createImageSlide (lit "T") (lit "p.png") (Some (lit ""))
                          LayoutImageRight) LF
  = [ lit "---"; lit "layout: " ++ layout_name LayoutImageRight;
      lit "image: " ++ lit "p.png"; lit "---"; lit "";
      lit "# " ++ lit "T" ]
      ++ caption_lines LayoutImageRight (given_caption (Some (lit "")))
      ++ [ lit ""; lit "---"; lit "" ].
Proof.
  apply (createImageSlide_lines (lit "T") (lit "p.png") (Some (lit ""))
                                LayoutImageRight);
    [reflexivity | reflexivity |].
  intros c Hc. injection Hc as <-. reflexivity.
Defined.

(** The generate-presentation handler never reaches the point where it
    writes the deck: whatever the arguments, the deck it renders fails its
    own validation and the handler answers a non-empty list of errors. *)
Theorem generate_presentation_never_writes :
  forall toLowerCase topic author duration theme outputPath style,
  exists errs,
    generate_presentation toLowerCase topic author duration theme
                          outputPath style
    = ValidationErrors errs
    /\ errs <> [].
Proof.
  intros toLowerCase topic author duration theme outputPath style.
  unfold generate_presentation.
  match goal with
  | |- context [validateSlideContent ?deck] =>
      assert (Hlast : In (empty_msg (Z.of_nat (length (split deck SEP))))
                         (errors (validateSlideContent deck)))
        by apply validate_reports_last, createPresentationFromOutline_ends;
      pose proof (In_not_valid _ _ Hlast) as Hv;
      rewrite Hv; cbn [negb];
      exists (errors (validateSlideContent deck))
  end.
  split; [reflexivity|].
  intros E. rewrite E in Hlast. contradiction.
Qed.
